(** * Insights-Engine backend: question-to-SQL pipeline

    Shallow embedding of [src/backend/sql_templates.py]
    ([generate_sql_from_template]), [src/backend/utils.py]
    ([local_generate_sql], [get_schema_metadata]) and the [/ask] handler of
    [src/backend/main.py] ([ask_data]).

    Python strings are modelled as [list ascii] internally (and [string] at
    the API); the character classes below are the ASCII part of Python's
    Unicode classes. *)

From Stdlib Require Import Ascii String List Bool Arith Lia.
Import ListNotations.
Open Scope bool_scope.

(** ** Characters *)

(** [str.isspace] / regex [\s] on ASCII: space, \t \n \v \f \r and the
    separators \x1c-\x1f. *)
Definition is_space (c : ascii) : bool :=
  let n := nat_of_ascii c in
  ((9 <=? n) && (n <=? 13)) || ((28 <=? n) && (n <=? 32)) .

(** regex [\d] on ASCII. *)
Definition is_digit (c : ascii) : bool :=
  let n := nat_of_ascii c in (48 <=? n) && (n <=? 57).

(** regex [.] (no DOTALL): any character but a newline. *)
Definition is_newline (c : ascii) : bool := Ascii.eqb c "010"%char.

(** [str.lower] on ASCII. *)
Definition lower_char (c : ascii) : ascii :=
  let n := nat_of_ascii c in
  if (65 <=? n) && (n <=? 90) then ascii_of_nat (n + 32) else c.

Definition lower (s : list ascii) : list ascii := map lower_char s.

(** [str.lstrip()], [str.rstrip()], [str.strip()] with no argument. *)
Fixpoint lstrip (s : list ascii) : list ascii :=
  match s with
  | [] => []
  | c :: t => if is_space c then lstrip t else s
  end.

Definition rstrip (s : list ascii) : list ascii := rev (lstrip (rev s)).

Definition strip (s : list ascii) : list ascii := rstrip (lstrip s).

(** [q = question.lower().strip()] (sql_templates.py, line 4). *)
Definition normalize (s : list ascii) : list ascii := strip (lower s).

(** ** Regular expressions, Python [re] semantics

    A backtracking matcher in continuation-passing style: alternatives and
    repetitions are tried in the order of Python's [sre] engine and the
    first success is kept, so the captured groups are those Python reports. *)

Inductive regex : Type :=
| Empty                          (* the empty pattern *)
| Lit (c : ascii)                (* a literal character *)
| Any                            (* . *)
| Digit                          (* \d *)
| Space                          (* \s *)
| Cat (r1 r2 : regex)            (* r1 r2 *)
| Alt (r1 r2 : regex)            (* r1|r2 *)
| Opt (r : regex)                (* r? (greedy) *)
| Star (r : regex)               (* r* (greedy) *)
| LazyStar (r : regex)           (* r*? (lazy) *)
| Group (n : nat) (r : regex).   (* (r), group number n *)

Definition Plus (r : regex) : regex := Cat r (Star r).          (* r+ *)
Definition LazyPlus (r : regex) : regex := Cat r (LazyStar r).  (* r+? *)

(** A run of literal characters. *)
Fixpoint lits (s : string) : regex :=
  match s with
  | EmptyString => Empty
  | String c t => Cat (Lit c) (lits t)
  end.

(** Captured groups, most recent first. *)
Definition caps := list (nat * list ascii).

Definition class_step {A} (p : ascii -> bool) (s : list ascii) (cs : caps)
    (k : list ascii -> caps -> option A) : option A :=
  match s with
  | c :: t => if p c then k t cs else None
  | [] => None
  end.

Definition orelse {A} (x : option A) (y : unit -> option A) : option A :=
  match x with
  | Some v => Some v
  | None => y tt
  end.

(** A repetition [r*] (greedy) or [r*?] (lazy) whose body matcher is
    [body]: an iteration only counts when the body consumed something, and
    the loop is bounded by [fuel], started at [length s], which never cuts
    a real iteration. *)
Fixpoint star_loop {A} (greedy : bool)
    (body : list ascii -> caps -> (list ascii -> caps -> option A) -> option A)
    (k : list ascii -> caps -> option A)
    (fuel : nat) (s : list ascii) (cs : caps) : option A :=
  match fuel with
  | O => k s cs
  | S f =>
      let again := fun (_ : unit) =>
        body s cs (fun s' cs' =>
          if length s' <? length s then star_loop greedy body k f s' cs' else None) in
      if greedy then orelse (again tt) (fun _ => k s cs)
      else orelse (k s cs) again
  end.

(** [m r s cs k]: match [r] at the start of [s], then run the continuation
    [k] on the rest; the first success is returned. *)
Fixpoint m {A} (r : regex) (s : list ascii) (cs : caps)
    (k : list ascii -> caps -> option A) {struct r} : option A :=
  match r with
  | Empty => k s cs
  | Lit c => class_step (Ascii.eqb c) s cs k
  | Any => class_step (fun c => negb (is_newline c)) s cs k
  | Digit => class_step is_digit s cs k
  | Space => class_step is_space s cs k
  | Cat r1 r2 => m r1 s cs (fun s1 cs1 => m r2 s1 cs1 k)
  | Alt r1 r2 => orelse (m r1 s cs k) (fun _ => m r2 s cs k)
  | Opt r1 => orelse (m r1 s cs k) (fun _ => k s cs)
  | Star r1 => star_loop true (fun s cs k => m r1 s cs k) k (length s) s cs
  | LazyStar r1 => star_loop false (fun s cs k => m r1 s cs k) k (length s) s cs
  | Group n r1 =>
      m r1 s cs (fun s' cs' =>
        k s' ((n, firstn (length s - length s') s) :: cs'))
  end.

(** [re.search(r, s)]: the groups of the leftmost match, if any. *)
Fixpoint search (r : regex) (s : list ascii) : option caps :=
  orelse (m r s [] (fun _ cs => Some cs))
    (fun _ => match s with
              | [] => None
              | _ :: t => search r t
              end).

(** Truthiness of [re.search(r, s)]. *)
Definition re_search (r : regex) (s : list ascii) : bool :=
  match search r s with Some _ => true | None => false end.

(** Group [n] of a match ([''] when it did not take part). *)
Definition group (cs : caps) (n : nat) : list ascii :=
  match find (fun p => Nat.eqb (fst p) n) cs with
  | Some (_, v) => v
  | None => []
  end.

(** [re.findall(r, s)] is non-empty exactly when [re.search(r, s)]
    succeeds, and its first element holds the groups of that leftmost
    match; the code only uses [num]/[dates] through [if num:] and
    [num[0]], so [findall_first] returns that first element. *)
Definition findall_first (r : regex) (s : list ascii) : option caps :=
  search r s.

(** ** The rule set of [generate_sql_from_template] *)

Open Scope string_scope.

Module Pat.
(** [(how many|number of)\s+users] *)
Definition users_count : regex :=
  Cat (Group 1 (Alt (lits "how many") (lits "number of")))
      (Cat (Plus Space) (lits "users")).
(** [total revenue] *)
Definition total_revenue : regex := lits "total revenue".
(** [(highest|top).*revenue.*category] *)
Definition top_category : regex :=
  Cat (Group 1 (Alt (lits "highest") (lits "top")))
      (Cat (Star Any) (Cat (lits "revenue") (Cat (Star Any) (lits "category")))).
(** [which category has the highest revenue] *)
Definition which_category : regex :=
  lits "which category has the highest revenue".
(** [top.*(customers|users)] *)
Definition top_users : regex :=
  Cat (lits "top") (Cat (Star Any) (Group 1 (Alt (lits "customers") (lits "users")))).
(** [(most popular|top selling) products?] *)
Definition top_products : regex :=
  Cat (Group 1 (Alt (lits "most popular") (lits "top selling")))
      (Cat (lits " product") (Opt (Lit "s"))).
(** [revenue over time] *)
Definition revenue_over_time : regex := lits "revenue over time".
(** [orders per day] *)
Definition orders_per_day : regex := lits "orders per day".
(** [monthly revenue] *)
Definition monthly_revenue : regex := lits "monthly revenue".
(** [(orders\s+)?with quantity\s+>\s*\d+] *)
Definition quantity : regex :=
  Cat (Opt (Group 1 (Cat (lits "orders") (Plus Space))))
      (Cat (lits "with quantity")
         (Cat (Plus Space) (Cat (Lit ">") (Cat (Star Space) (Plus Digit))))).
(** [quantity\s*>\s*(\d+)] *)
Definition quantity_num : regex :=
  Cat (lits "quantity")
      (Cat (Star Space) (Cat (Lit ">") (Cat (Star Space) (Group 1 (Plus Digit))))).
(** [compare users by number of orders] *)
Definition compare_users : regex := lits "compare users by number of orders".
(** [users by order count] *)
Definition users_by_order_count : regex := lits "users by order count".
(** [users.*more than \d+ orders] *)
Definition users_more_than : regex :=
  Cat (lits "users")
      (Cat (Star Any) (Cat (lits "more than ") (Cat (Plus Digit) (lits " orders")))).
(** [more than (\d+)] *)
Definition more_than_num : regex := Cat (lits "more than ") (Group 1 (Plus Digit)).
(** [orders.*between .* and .*] *)
Definition orders_between : regex :=
  Cat (lits "orders")
      (Cat (Star Any) (Cat (lits "between ")
         (Cat (Star Any) (Cat (lits " and ") (Star Any))))).
(** [between (.+?) and (.+)] *)
Definition between_dates : regex :=
  Cat (lits "between ")
      (Cat (Group 1 (LazyPlus Any)) (Cat (lits " and ") (Group 2 (Plus Any)))).
(** [orders by category] *)
Definition orders_by_category : regex := lits "orders by category".
(** [users by signup date] *)
Definition users_by_signup : regex := lits "users by signup date".
End Pat.

Module Sql.
Definition count_users : string :=
"-- Count of users
SELECT COUNT(*) AS total_users FROM users;".

Definition total_revenue : string :=
"
        -- Total revenue from all orders
        SELECT SUM(o.quantity * p.price) AS total_revenue
        FROM orders o
        JOIN products p ON o.product_id = p.id;
        ".

Definition top_category : string :=
"
        -- Category with the highest revenue
        SELECT p.category, SUM(o.quantity * p.price) AS revenue
        FROM orders o
        JOIN products p ON o.product_id = p.id
        GROUP BY p.category
        ORDER BY revenue DESC
        LIMIT 1;
        ".

Definition top_users : string :=
"
        -- Top 5 users by total spending
        SELECT u.name, SUM(o.quantity * p.price) AS total_spent
        FROM orders o
        JOIN users u ON o.user_id = u.id
        JOIN products p ON o.product_id = p.id
        GROUP BY u.id
        ORDER BY total_spent DESC
        LIMIT 5;
        ".

Definition top_products : string :=
"
        -- Top selling products by quantity
        SELECT p.name AS product_name, SUM(o.quantity) AS total_sold
        FROM orders o
        JOIN products p ON o.product_id = p.id
        GROUP BY p.id
        ORDER BY total_sold DESC
        LIMIT 5;
        ".

Definition revenue_over_time : string :=
"
        -- Daily revenue trend
        SELECT DATE(o.order_date) AS day, SUM(o.quantity * p.price) AS revenue
        FROM orders o
        JOIN products p ON o.product_id = p.id
        GROUP BY day
        ORDER BY day;
        ".

Definition orders_per_day : string :=
"
        -- Orders per day
        SELECT DATE(order_date) AS day, COUNT(*) AS order_count
        FROM orders
        GROUP BY day
        ORDER BY day;
        ".

Definition monthly_revenue : string :=
"
        -- Monthly revenue trend
        SELECT DATE_FORMAT(order_date, '%Y-%m') AS month, SUM(o.quantity * p.price) AS revenue
        FROM orders o
        JOIN products p ON o.product_id = p.id
        GROUP BY month
        ORDER BY month;
        ".

(** The f-string of lines 87-93, with [n = num[0]]. *)
Definition quantity (n : string) : string :=
"
            -- Orders with quantity greater than " ++ n ++ "
            SELECT o.id AS order_id, p.name AS product_name, o.quantity
            FROM orders o
            JOIN products p ON o.product_id = p.id
            WHERE o.quantity > " ++ n ++ ";
            ".

Definition orders_by_user : string :=
"
        -- Number of orders by user
        SELECT u.name, COUNT(o.id) AS total_orders
        FROM users u
        JOIN orders o ON u.id = o.user_id
        GROUP BY u.id
        ORDER BY total_orders DESC;
        ".

(** The f-string of lines 109-116, with [n = num[0]]. *)
Definition users_more_than (n : string) : string :=
"
            -- Users with more than " ++ n ++ " orders
            SELECT u.name, COUNT(o.id) AS total_orders
            FROM users u
            JOIN orders o ON u.id = o.user_id
            GROUP BY u.id
            HAVING total_orders > " ++ n ++ ";
            ".

(** The f-string of lines 122-129, with the stripped dates. *)
Definition orders_between (s e : string) : string :=
"
            -- Orders between " ++ s ++ " and " ++ e ++ "
            SELECT o.id AS order_id, u.name AS user_name, p.name AS product_name, o.quantity, o.order_date
            FROM orders o
            JOIN users u ON o.user_id = u.id
            JOIN products p ON o.product_id = p.id
            WHERE o.order_date BETWEEN '" ++ s ++ "' AND '" ++ e ++ "';
            ".

Definition orders_by_category : string :=
"
        -- Number of orders per product category
        SELECT p.category, COUNT(o.id) AS total_orders
        FROM orders o
        JOIN products p ON o.product_id = p.id
        GROUP BY p.category;
        ".

Definition users_by_signup : string :=
"
        -- New users by signup date
        SELECT DATE(created_at) AS signup_date, COUNT(*) AS new_users
        FROM users
        GROUP BY signup_date
        ORDER BY signup_date;
        ".

(** Line 150: the no-match sentinel. *)
Definition no_match : string :=
  "-- No matching SQL template found for the question.".
End Sql.

(** One [if] block of [generate_sql_from_template]: [Some sql] when it
    returns, [None] when control falls through to the next block. *)
Definition rule := list ascii -> option string.

Module Rule.
Definition count_users : rule := fun q =>
  if re_search Pat.users_count q then Some Sql.count_users else None.
Definition total_revenue : rule := fun q =>
  if re_search Pat.total_revenue q then Some Sql.total_revenue else None.
Definition top_category : rule := fun q =>
  if re_search Pat.top_category q || re_search Pat.which_category q
  then Some Sql.top_category else None.
Definition top_users : rule := fun q =>
  if re_search Pat.top_users q then Some Sql.top_users else None.
Definition top_products : rule := fun q =>
  if re_search Pat.top_products q then Some Sql.top_products else None.
Definition revenue_over_time : rule := fun q =>
  if re_search Pat.revenue_over_time q then Some Sql.revenue_over_time else None.
Definition orders_per_day : rule := fun q =>
  if re_search Pat.orders_per_day q then Some Sql.orders_per_day else None.
Definition monthly_revenue : rule := fun q =>
  if re_search Pat.monthly_revenue q then Some Sql.monthly_revenue else None.
(** Lines 84-93: [num = re.findall(...)]; [if num:] guards the return. *)
Definition quantity : rule := fun q =>
  if re_search Pat.quantity q then
    match findall_first Pat.quantity_num q with
    | Some num => Some (Sql.quantity (string_of_list_ascii (group num 1)))
    | None => None
    end
  else None.
Definition orders_by_user : rule := fun q =>
  if re_search Pat.compare_users q || re_search Pat.users_by_order_count q
  then Some Sql.orders_by_user else None.
(** Lines 106-116. *)
Definition users_more_than : rule := fun q =>
  if re_search Pat.users_more_than q then
    match findall_first Pat.more_than_num q with
    | Some num => Some (Sql.users_more_than (string_of_list_ascii (group num 1)))
    | None => None
    end
  else None.
(** Lines 118-129: [start_date, end_date = dates[0]], both stripped. *)
Definition orders_between : rule := fun q =>
  if re_search Pat.orders_between q then
    match findall_first Pat.between_dates q with
    | Some d =>
        Some (Sql.orders_between (string_of_list_ascii (strip (group d 1)))
                                 (string_of_list_ascii (strip (group d 2))))
    | None => None
    end
  else None.
Definition orders_by_category : rule := fun q =>
  if re_search Pat.orders_by_category q then Some Sql.orders_by_category else None.
Definition users_by_signup : rule := fun q =>
  if re_search Pat.users_by_signup q then Some Sql.users_by_signup else None.
End Rule.

(** The blocks in source order. *)
Definition rules : list rule :=
  [Rule.count_users; Rule.total_revenue; Rule.top_category; Rule.top_users;
   Rule.top_products; Rule.revenue_over_time; Rule.orders_per_day;
   Rule.monthly_revenue; Rule.quantity; Rule.orders_by_user;
   Rule.users_more_than; Rule.orders_between; Rule.orders_by_category;
   Rule.users_by_signup].

(** Runs the blocks in order; the first [return] wins. *)
Fixpoint first_match (rs : list rule) (q : list ascii) : option string :=
  match rs with
  | [] => None
  | r :: rest =>
      match r q with
      | Some sql => Some sql
      | None => first_match rest q
      end
  end.

(** [generate_sql_from_template(question)] (sql_templates.py, 3-150). *)
Definition generate_sql_from_template (question : string) : string :=
  let q := normalize (list_ascii_of_string question) in
  match first_match rules q with
  | Some sql => sql
  | None => Sql.no_match
  end.

(** ** [local_generate_sql] and the generative fallback (utils.py) *)

Definition la (s : string) : list ascii := list_ascii_of_string s.

Fixpoint prefixb (p s : list ascii) : bool :=
  match p, s with
  | [], _ => true
  | c :: p', d :: s' => Ascii.eqb c d && prefixb p' s'
  | _ :: _, [] => false
  end.

(** Python's [p in s] on strings. *)
Fixpoint contains (p s : list ascii) : bool :=
  prefixb p s || match s with [] => false | _ :: t => contains p t end.

(** Python's [s.split(sep)] for a non-empty [sep]: scans left to right,
    cutting at each non-overlapping occurrence. *)
Fixpoint split_go (fuel : nat) (sep s cur : list ascii) : list (list ascii) :=
  match fuel with
  | O => [app (rev cur) s]
  | S f =>
      match s with
      | [] => [rev cur]
      | c :: t =>
          if prefixb sep s then rev cur :: split_go f sep (skipn (length sep) s) []
          else split_go f sep t (c :: cur)
      end
  end.

Definition split_on (sep s : list ascii) : list (list ascii) :=
  split_go (S (length s)) sep s [].

Definition default_sql : string := "SELECT * FROM orders LIMIT 10;".

(** The f-string prompt of lines 15-22. *)
Definition prompt (question schema : string) : string :=
"You are a helpful assistant that converts natural language to SQL.
Here is the database schema:

" ++ schema ++ "

Translate the following question into a correct MySQL SQL query.
Question: " ++ question ++ "
SQL:".

(** Lines 27-31: the first line after the last ["SQL:"] that contains
    ["select"], stripped; [None] when the loop finds none. *)
Definition extract_sql (response : string) : option string :=
  let r := la response in
  if contains (la "SQL:") r then
    let sql_lines := split_on ["010"%char] (strip (last (split_on (la "SQL:") r) [])) in
    match find (fun line => contains (la "select") (lower line)) sql_lines with
    | Some line => Some (string_of_list_ascii (strip line))
    | None => None
    end
  else None.

Section Fallback.

(** [nlp(prompt, max_length=100, do_sample=False)[0]["generated_text"]]:
    the model's text, or [None] when the call raises. *)
Variable nlp : string -> option string.

(** [local_generate_sql(question, schema)] (utils.py, lines 8-35). *)
Definition local_generate_sql (question schema : string) : string :=
  let template_sql := generate_sql_from_template question in
  if negb (String.eqb template_sql "") then template_sql
  else
    match nlp (prompt question schema) with
    | Some response =>
        match extract_sql response with
        | Some line => line
        | None => default_sql
        end
    | None => default_sql
    end.

End Fallback.

(** ** Schema introspection and the [/ask] handler *)

(** What [SHOW TABLES] and [DESCRIBE t] report: tables in order, each with
    its (column name, column type) pairs in order. *)
Definition db_schema := list (string * list (string * string)).

(** [get_schema_metadata()] (utils.py, lines 37-50); [None] stands for the
    connection or an introspection query raising. *)
Definition get_schema_metadata (introspect : option db_schema) : option string :=
  match introspect with
  | None => None
  | Some tables =>
      Some (fold_left
              (fun schema '(table_name, columns) =>
                 fold_left (fun schema '(c0, c1) =>
                              schema ++ "  - " ++ c0 ++ " (" ++ c1 ++ ")
")
                           columns (schema ++ "
Table: " ++ table_name ++ "
"))
              tables "")
  end.

Definition row := list (string * string).

(** The JSON bodies [ask_data] returns. *)
Inductive response : Type :=
| Result (rows : list row)      (* {"result": rows} *)
| Message (msg : string)        (* {"message": sql.strip()} *)
| Error.                        (* {"error": str(e)} *)

Section Ask.
Variable nlp : string -> option string.
(** [conn.execute(text(sql))]: the rows, or [None] when it raises. *)
Variable run_query : string -> option (list row).

(** [ask_data(req)] (main.py, lines 42-61), after the API-key check. *)
Definition ask_data (introspect : option db_schema) (question : string) : response :=
  match get_schema_metadata introspect with
  | None => Error
  | Some schema =>
      let sql := local_generate_sql nlp question schema in
      let stripped := strip (la sql) in
      if prefixb (la "-- No matching SQL") stripped
      then Message (string_of_list_ascii stripped)
      else
        match run_query sql with
        | Some rows => Result rows
        | None => Error
        end
  end.
End Ask.

(** ** API key (main.py, lines 29-34, and the frontend, app.py, line 218) *)



(** The text [get_schema_metadata] appends for one column and for one
    table (lines 46-49), used to describe its result. *)
Definition column_line (col : string * string) : string :=
  "  - " ++ fst col ++ " (" ++ snd col ++ ")
".

Definition table_block (table : string * list (string * string)) : string :=
  "
Table: " ++ fst table ++ "
" ++ String.concat "" (map column_line (snd table)).

(** The prefix [ask_data] tests with [sql.strip().startswith(...)]. *)
Definition sentinel_prefix : list ascii := la "-- No matching SQL".

(** The two fixed parts of the question "users with more than N orders". *)
Definition more_than_prefix : list ascii := la "users with more than ".
Definition more_than_suffix : list ascii := la " orders".

(** * Properties *)

Open Scope list_scope.

Ltac ascii_cases c := destruct c as [[] [] [] [] [] [] [] []]; reflexivity.

(** ** Normalisation *)

Lemma lower_char_idem : forall c, lower_char (lower_char c) = lower_char c.
Proof. intro c; ascii_cases c. Qed.

Lemma is_space_lower_char : forall c, is_space (lower_char c) = is_space c.
Proof. intro c; ascii_cases c. Qed.

Lemma lower_idem : forall s, lower (lower s) = lower s.
Proof.
  intro s; unfold lower; rewrite map_map.
  apply map_ext, lower_char_idem.
Qed.

Lemma lstrip_lower : forall s, lstrip (lower s) = lower (lstrip s).
Proof.
  induction s as [|c t IH]; simpl; [reflexivity|].
  rewrite is_space_lower_char; destruct (is_space c); [exact IH|reflexivity].
Qed.

Lemma strip_lower : forall s, strip (lower s) = lower (strip s).
Proof.
  intro s; unfold strip, rstrip, lower.
  rewrite lstrip_lower; unfold lower.
  rewrite <- map_rev, lstrip_lower; unfold lower.
  rewrite map_rev; reflexivity.
Qed.

Lemma lstrip_idem : forall s, lstrip (lstrip s) = lstrip s.
Proof.
  induction s as [|c t IH]; simpl; [reflexivity|].
  destruct (is_space c) eqn:E; [exact IH|simpl; rewrite E; reflexivity].
Qed.

Lemma rstrip_idem : forall s, rstrip (rstrip s) = rstrip s.
Proof.
  intro s; unfold rstrip; rewrite rev_involutive, lstrip_idem; reflexivity.
Qed.

Lemma lstrip_snoc : forall l c,
  lstrip (l ++ [c]) = match lstrip l with [] => lstrip [c] | r => r ++ [c] end.
Proof.
  induction l as [|d t IH]; intro c; simpl; [reflexivity|].
  destruct (is_space d); [apply IH|reflexivity].
Qed.

Lemma rstrip_cons : forall c t,
  rstrip (c :: t) =
  match rstrip t with [] => if is_space c then [] else [c] | r => c :: r end.
Proof.
  intros c t; unfold rstrip; simpl rev at 1; rewrite lstrip_snoc.
  destruct (lstrip (rev t)) as [|x r] eqn:E; simpl.
  - destruct (is_space c); reflexivity.
  - destruct (rev r ++ [x]) as [|y u] eqn:F.
    + destruct (rev r); discriminate.
    + rewrite rev_app_distr; simpl; rewrite F; reflexivity.
Qed.

Lemma lstrip_rstrip : forall s, lstrip (rstrip s) = rstrip (lstrip s).
Proof.
  induction s as [|c t IH]; [reflexivity|].
  rewrite rstrip_cons; simpl lstrip at 2.
  destruct (is_space c) eqn:E.
  - destruct (rstrip t) as [|x r] eqn:F.
    + rewrite <- IH; reflexivity.
    + rewrite <- IH; simpl; rewrite E; reflexivity.
  - rewrite rstrip_cons.
    destruct (rstrip t) as [|x r]; simpl; rewrite E; reflexivity.
Qed.

Lemma strip_idem : forall s, strip (strip s) = strip s.
Proof.
  intro s; unfold strip.
  rewrite lstrip_rstrip, lstrip_idem, rstrip_idem; reflexivity.
Qed.

(** ** The resolver *)

Lemma first_match_some : forall rs q sql,
  first_match rs q = Some sql -> exists r, In r rs /\ r q = Some sql.
Proof.
  induction rs as [|r rest IH]; simpl; intros q sql H; [discriminate|].
  destruct (r q) eqn:E.
  - inversion H; subst; eauto.
  - destruct (IH q sql H) as (r' & Hin & Hr); eauto.
Qed.

Lemma first_match_app : forall rs1 rs2 q,
  first_match rs1 q = None -> first_match (rs1 ++ rs2) q = first_match rs2 q.
Proof.
  induction rs1 as [|r rest IH]; simpl; intros rs2 q H; [reflexivity|].
  destruct (r q); [discriminate|auto].
Qed.

Lemma first_match_nth : forall rs i r q sql,
  nth_error rs i = Some r -> r q = Some sql ->
  (forall j r', j < i -> nth_error rs j = Some r' -> r' q = None) ->
  first_match rs q = Some sql.
Proof.
  induction rs as [|r0 rest IH]; intros i r q sql Hi Hr Hbefore;
    [destruct i; discriminate|].
  destruct i as [|i]; simpl in *.
  - inversion Hi; subst; rewrite Hr; reflexivity.
  - rewrite (Hbefore 0 r0 ltac:(lia) eq_refl).
    apply (IH i r); auto.
    intros j r' Hj Hr'; apply (Hbefore (S j)); auto; lia.
Qed.

Lemma string_app_nonempty : forall c s t, (String c s ++ t)%string <> "".
Proof. discriminate. Qed.

Lemma rules_nonempty : forall r q sql, In r rules -> r q = Some sql -> sql <> "".
Proof.
  intros r q sql Hin; simpl in Hin.
  repeat (destruct Hin as [<-|Hin];
    [ cbv beta delta [Rule.count_users Rule.total_revenue Rule.top_category
        Rule.top_users Rule.top_products Rule.revenue_over_time
        Rule.orders_per_day Rule.monthly_revenue Rule.quantity
        Rule.orders_by_user Rule.users_more_than Rule.orders_between
        Rule.orders_by_category Rule.users_by_signup];
      repeat match goal with
             | |- context [if ?b then _ else _] => destruct b
             | |- context [match ?x with Some _ => _ | None => _ end] => destruct x
             end;
      intro H; inversion H; subst; discriminate
    | ]).
  contradiction.
Qed.

Lemma generate_nonempty : forall question, generate_sql_from_template question <> "".
Proof.
  intro question; unfold generate_sql_from_template.
  destruct (first_match rules _) as [sql|] eqn:E; [|discriminate].
  destruct (first_match_some _ _ _ E) as (r & Hin & Hr).
  exact (rules_nonempty r _ sql Hin Hr).
Qed.

(** ** The matcher *)

Lemma m_cat_eq : forall A r1 r2 s cs (k : list ascii -> caps -> option A),
  m (Cat r1 r2) s cs k = m r1 s cs (fun s1 cs1 => m r2 s1 cs1 k).
Proof. reflexivity. Qed.

Lemma m_group_eq : forall A n r s cs (k : list ascii -> caps -> option A),
  m (Group n r) s cs k =
  m r s cs (fun s' cs' => k s' ((n, firstn (length s - length s') s) :: cs')).
Proof. reflexivity. Qed.

Lemma m_lit_eq : forall A c s cs (k : list ascii -> caps -> option A),
  m (Lit c) (c :: s) cs k = k s cs.
Proof. intros; simpl; rewrite Ascii.eqb_refl; reflexivity. Qed.

Lemma m_opt_some : forall A r s cs (k : list ascii -> caps -> option A) v,
  m r s cs k = Some v -> m (Opt r) s cs k = Some v.
Proof. intros A r s cs k v H; simpl; rewrite H; reflexivity. Qed.

Lemma la_app : forall a b, la (a ++ b) = la a ++ la b.
Proof. induction a as [|c a IH]; intro b; simpl; [reflexivity|f_equal; apply IH]. Qed.

Lemma m_lits : forall A p s cs (k : list ascii -> caps -> option A),
  m (lits p) s cs k =
  if prefixb (la p) s then k (skipn (String.length p) s) cs else None.
Proof.
  induction p as [|c p IH]; intros s cs k; [reflexivity|].
  simpl lits; rewrite m_cat_eq; destruct s as [|d s]; [reflexivity|].
  simpl; destruct (Ascii.eqb c d); simpl; [apply IH|reflexivity].
Qed.

Lemma prefixb_app : forall p s, prefixb p (p ++ s) = true.
Proof. induction p as [|c p IH]; intro s; simpl; [reflexivity|rewrite Ascii.eqb_refl; apply IH]. Qed.

Lemma la_length : forall p, length (la p) = String.length p.
Proof. induction p as [|c p IH]; simpl; [reflexivity|rewrite IH; reflexivity]. Qed.

Lemma m_lits_app : forall A p s cs (k : list ascii -> caps -> option A),
  m (lits p) (la p ++ s) cs k = k s cs.
Proof.
  intros; rewrite m_lits, prefixb_app.
  replace (String.length p) with (length (la p)) by apply la_length.
  rewrite skipn_app, skipn_all, Nat.sub_diag; reflexivity.
Qed.

Lemma ltb_succ : forall n : nat, (n <? S n)%nat = true.
Proof. intro n; apply Nat.ltb_lt; lia. Qed.

(** Characters of the question that cannot start a run of [\s]. *)
Definition head_not_space (s : list ascii) : Prop :=
  match s with c :: _ => is_space c = false | [] => True end.

Lemma star_space_stop : forall A s cs (k : list ascii -> caps -> option A),
  head_not_space s -> m (Star Space) s cs k = k s cs.
Proof.
  intros A [|c t] cs k H; [reflexivity|].
  simpl in H; simpl; rewrite H; reflexivity.
Qed.

Lemma star_space_one : forall A c s cs (k : list ascii -> caps -> option A) v,
  is_space c = true -> head_not_space s -> k s cs = Some v ->
  m (Star Space) (c :: s) cs k = Some v.
Proof.
  intros A c s cs k v Hc Hs Hk; simpl; rewrite Hc.
  rewrite ltb_succ.
  change (orelse (m (Star Space) s cs k) (fun _ => k (c :: s) cs) = Some v).
  rewrite star_space_stop, Hk by exact Hs; reflexivity.
Qed.

Lemma plus_space_one : forall A c s cs (k : list ascii -> caps -> option A),
  is_space c = true -> head_not_space s -> m (Plus Space) (c :: s) cs k = k s cs.
Proof.
  intros A c s cs k Hc Hs; unfold Plus; rewrite m_cat_eq; simpl m at 1.
  rewrite Hc; apply star_space_stop, Hs.
Qed.

Lemma star_loop_digits : forall A (k : list ascii -> caps -> option A) v t fuel cs,
  length t <= fuel -> forallb is_digit t = true -> k [] cs = Some v ->
  star_loop true (fun s cs k => class_step is_digit s cs k) k fuel t cs = Some v.
Proof.
  intros A k v; induction t as [|x t IH]; intros fuel cs Hl Ht Hk.
  - destruct fuel; simpl; exact Hk.
  - destruct fuel as [|f]; [simpl in Hl; lia|].
    simpl in Ht; apply andb_prop in Ht as [Hx Ht].
    simpl; rewrite Hx, ltb_succ.
    rewrite (IH f cs) by (simpl in Hl; lia || assumption); reflexivity.
Qed.

Lemma plus_digits : forall A d cs (k : list ascii -> caps -> option A) v,
  d <> [] -> forallb is_digit d = true -> k [] cs = Some v ->
  m (Plus Digit) d cs k = Some v.
Proof.
  intros A [|x t] cs k v Hd Ht Hk; [congruence|].
  simpl in Ht; apply andb_prop in Ht as [Hx Ht].
  unfold Plus; rewrite m_cat_eq; simpl m at 1; rewrite Hx.
  exact (star_loop_digits A k v t (length t) cs (le_n _) Ht Hk).
Qed.

Lemma search_here : forall r s v,
  m r s [] (fun _ cs => Some cs) = Some v -> search r s = Some v.
Proof. intros r [|c s] v H; simpl; rewrite H; reflexivity. Qed.

Lemma search_skip : forall r c s,
  m r (c :: s) [] (fun _ cs => Some cs) = None -> search r (c :: s) = search r s.
Proof. intros r c s H; simpl; rewrite H; reflexivity. Qed.

(** Characters every match of a pattern consumes. *)
Fixpoint mandatory (r : regex) : list ascii :=
  match r with
  | Lit c => [c]
  | Cat r1 r2 => mandatory r1 ++ mandatory r2
  | Alt r1 r2 => filter (fun c => existsb (Ascii.eqb c) (mandatory r2)) (mandatory r1)
  | Group _ r1 => mandatory r1
  | _ => []
  end.

Lemma star_loop_consumes : forall A g
  (body : list ascii -> caps -> (list ascii -> caps -> option A) -> option A)
  (k : list ascii -> caps -> option A),
  (forall s cs k' v, body s cs k' = Some v ->
     exists pre s' cs', s = pre ++ s' /\ k' s' cs' = Some v) ->
  forall fuel s cs v, star_loop g body k fuel s cs = Some v ->
  exists pre s' cs', s = pre ++ s' /\ k s' cs' = Some v.
Proof.
  intros A g body k Hbody; induction fuel as [|f IH]; intros s cs v H.
  - exists [], s, cs; auto.
  - simpl in H.
    assert (Hagain : body s cs (fun s' cs' =>
               if (length s' <? length s)%nat then star_loop g body k f s' cs' else None)
             = Some v -> exists pre s' cs', s = pre ++ s' /\ k s' cs' = Some v).
    { intro Hb; destruct (Hbody _ _ _ _ Hb) as (pre1 & s1 & cs1 & -> & H1).
      destruct (length s1 <? length (pre1 ++ s1))%nat; [|discriminate].
      destruct (IH _ _ _ H1) as (pre2 & s2 & cs2 & -> & H2).
      exists (pre1 ++ pre2), s2, cs2; rewrite app_assoc; auto. }
    destruct g; unfold orelse in H.
    + destruct (body s cs _) eqn:E; [inversion H; subst; auto|].
      exists [], s, cs; auto.
    + destruct (k s cs) eqn:E; [inversion H; subst; exists [], s, cs; auto|auto].
Qed.

Lemma m_consumes : forall A r s cs (k : list ascii -> caps -> option A) v,
  m r s cs k = Some v ->
  exists pre s' cs', s = pre ++ s' /\ k s' cs' = Some v /\
    (forall c, In c (mandatory r) -> In c pre).
Proof.
  intros A; induction r as [| c | | | | r1 IH1 r2 IH2 | r1 IH1 r2 IH2
                            | r1 IH1 | r1 IH1 | r1 IH1 | n r1 IH1];
    intros s cs k v H; simpl in *.
  - exists [], s, cs; repeat split; auto; intros ? [].
  - destruct s as [|d t]; [discriminate|simpl in H].
    destruct (Ascii.eqb c d) eqn:E; [|discriminate].
    apply Ascii.eqb_eq in E; subst.
    exists [d], t, cs; repeat split; auto; intros x [<-|[]]; left; reflexivity.
  - destruct s as [|d t]; [discriminate|simpl in H].
    destruct (negb (is_newline d)); [|discriminate].
    exists [d], t, cs; repeat split; auto; intros ? [].
  - destruct s as [|d t]; [discriminate|simpl in H].
    destruct (is_digit d); [|discriminate].
    exists [d], t, cs; repeat split; auto; intros ? [].
  - destruct s as [|d t]; [discriminate|simpl in H].
    destruct (is_space d); [|discriminate].
    exists [d], t, cs; repeat split; auto; intros ? [].
  - destruct (IH1 _ _ _ _ H) as (pre1 & s1 & cs1 & -> & H1 & M1).
    destruct (IH2 _ _ _ _ H1) as (pre2 & s2 & cs2 & -> & H2 & M2).
    exists (pre1 ++ pre2), s2, cs2; rewrite app_assoc; repeat split; auto.
    intros x Hx; apply in_app_or in Hx as [Hx|Hx]; apply in_or_app; auto.
  - unfold orelse in H; destruct (m r1 s cs k) eqn:E.
    + inversion H; subst.
      destruct (IH1 _ _ _ _ E) as (pre & s' & cs' & -> & Hk & M).
      exists pre, s', cs'; repeat split; auto.
      intros x Hx; apply filter_In in Hx as [Hx _]; auto.
    + destruct (IH2 _ _ _ _ H) as (pre & s' & cs' & -> & Hk & M).
      exists pre, s', cs'; repeat split; auto.
      intros x Hx; apply filter_In in Hx as [_ Hx].
      apply existsb_exists in Hx as (y & Hy & Hxy).
      apply Ascii.eqb_eq in Hxy; subst; auto.
  - unfold orelse in H; destruct (m r1 s cs k) eqn:E.
    + inversion H; subst.
      destruct (IH1 _ _ _ _ E) as (pre & s' & cs' & -> & Hk & _).
      exists pre, s', cs'; repeat split; auto; intros ? [].
    + exists [], s, cs; repeat split; auto; intros ? [].
  - destruct (star_loop_consumes A true (fun s cs k => m r1 s cs k) k
                (fun s cs k' v H => match IH1 s cs k' v H with
                                    | ex_intro _ pre (ex_intro _ s' (ex_intro _ cs' (conj e (conj h _)))) =>
                                        ex_intro _ pre (ex_intro _ s' (ex_intro _ cs' (conj e h)))
                                    end)
                _ _ _ _ H) as (pre & s' & cs' & -> & Hk).
    exists pre, s', cs'; repeat split; auto; intros ? [].
  - destruct (star_loop_consumes A false (fun s cs k => m r1 s cs k) k
                (fun s cs k' v H => match IH1 s cs k' v H with
                                    | ex_intro _ pre (ex_intro _ s' (ex_intro _ cs' (conj e (conj h _)))) =>
                                        ex_intro _ pre (ex_intro _ s' (ex_intro _ cs' (conj e h)))
                                    end)
                _ _ _ _ H) as (pre & s' & cs' & -> & Hk).
    exists pre, s', cs'; repeat split; auto; intros ? [].
  - destruct (IH1 _ _ _ _ H) as (pre & s' & cs' & -> & Hk & M).
    eexists pre, s', _; split; [reflexivity|split; [exact Hk|exact M]].
Qed.

Lemma search_mandatory : forall r s v c,
  search r s = Some v -> In c (mandatory r) -> In c s.
Proof.
  intros r; induction s as [|d t IH]; intros v c H Hc; simpl in H;
    unfold orelse in H; destruct (m r _ [] _) eqn:E.
  - destruct (m_consumes _ _ _ _ _ _ E) as (pre & s' & cs' & Hs & _ & M).
    apply M in Hc; destruct pre; [exact Hc|discriminate].
  - discriminate.
  - destruct (m_consumes _ _ _ _ _ _ E) as (pre & s' & cs' & Hs & _ & M).
    rewrite Hs; apply in_or_app; auto.
  - right; eapply IH; eauto.
Qed.

Lemma re_search_absent : forall r s c,
  In c (mandatory r) -> ~ In c s -> re_search r s = false.
Proof.
  intros r s c Hc Hs; unfold re_search.
  destruct (search r s) eqn:E; [|reflexivity].
  exfalso; exact (Hs (search_mandatory r s c0 c E Hc)).
Qed.

(** ** The quantity-threshold question *)

Ltac ascii_bool_cases c :=
  destruct c as [[] [] [] [] [] [] [] []]; vm_compute;
  intros; first [reflexivity | discriminate].

Lemma digit_not_space : forall c, is_digit c = true -> is_space c = false.
Proof. intro c; ascii_bool_cases c. Qed.

Lemma lower_char_digit : forall c, is_digit c = true -> lower_char c = c.
Proof. intro c; ascii_bool_cases c. Qed.

Definition mem (c : ascii) (l : list ascii) : bool := existsb (Ascii.eqb c) l.

Lemma mem_In : forall c l, mem c l = true -> In c l.
Proof.
  intros c l H; apply existsb_exists in H as (x & Hx & E).
  apply Ascii.eqb_eq in E; subst; exact Hx.
Qed.

Lemma not_in_prefix_digits : forall c p d,
  is_digit c = false -> mem c p = false -> forallb is_digit d = true ->
  ~ In c (p ++ d).
Proof.
  intros c p d Hc Hp Hd Hin; apply in_app_or in Hin as [Hin|Hin].
  - assert (mem c p = true) by (apply existsb_exists; exists c;
      split; [exact Hin|apply Ascii.eqb_refl]); congruence.
  - rewrite forallb_forall in Hd; rewrite (Hd c Hin) in Hc; discriminate.
Qed.

Lemma lower_digits : forall d, forallb is_digit d = true -> lower d = d.
Proof.
  induction d as [|c d IH]; simpl; intro H; [reflexivity|].
  apply andb_prop in H as [Hc Hd]; rewrite lower_char_digit, IH; auto.
Qed.

Lemma lstrip_digit_head : forall x t r,
  is_digit x = true -> lstrip ((x :: t) ++ r) = (x :: t) ++ r.
Proof. intros x t r Hx; simpl; rewrite (digit_not_space x Hx); reflexivity. Qed.

Definition quantity_prefix : list ascii := la "orders with quantity > ".

Lemma normalize_quantity_question : forall d,
  d <> [] -> forallb is_digit d = true ->
  normalize (quantity_prefix ++ d) = quantity_prefix ++ d.
Proof.
  intros d Hne Hd; unfold normalize, lower; rewrite map_app.
  change (map lower_char quantity_prefix) with quantity_prefix.
  fold (lower d); rewrite (lower_digits d Hd).
  unfold strip; change (lstrip (quantity_prefix ++ d)) with (quantity_prefix ++ d).
  unfold rstrip; rewrite rev_app_distr.
  destruct (rev d) as [|x t] eqn:E.
  - apply (f_equal (@rev ascii)) in E; rewrite rev_involutive in E; simpl in E; congruence.
  - assert (Hx : is_digit x = true).
    { rewrite forallb_forall in Hd; apply Hd, in_rev; rewrite E; left; reflexivity. }
    rewrite lstrip_digit_head by exact Hx; rewrite <- E, <- rev_app_distr.
    apply rev_involutive.
Qed.

Ltac absent c :=
  rewrite (re_search_absent _ _ c);
  [ | apply mem_In; vm_compute; reflexivity
    | apply not_in_prefix_digits; [reflexivity | vm_compute; reflexivity | assumption]].

Lemma quantity_question_early_rules : forall d,
  forallb is_digit d = true ->
  let q := quantity_prefix ++ d in
  Rule.count_users q = None /\ Rule.total_revenue q = None /\
  Rule.top_category q = None /\ Rule.top_users q = None /\
  Rule.top_products q = None /\ Rule.revenue_over_time q = None /\
  Rule.orders_per_day q = None /\ Rule.monthly_revenue q = None.
Proof.
  intros d Hd q; unfold q.
  unfold Rule.count_users; absent "m"%char.
  unfold Rule.total_revenue; absent "v"%char.
  unfold Rule.top_category; absent "v"%char; absent "c"%char.
  unfold Rule.top_users; absent "p"%char.
  unfold Rule.top_products; absent "p"%char.
  unfold Rule.revenue_over_time; absent "v"%char.
  unfold Rule.orders_per_day; absent "p"%char.
  unfold Rule.monthly_revenue; absent "m"%char.
  repeat split.
Qed.

Lemma search_app_skip : forall r p s,
  (forall i, i < length p -> m r (skipn i p ++ s) [] (fun _ cs => Some cs) = None) ->
  search r (p ++ s) = search r s.
Proof.
  induction p as [|c p IH]; intros s H; [reflexivity|].
  simpl app; rewrite search_skip by exact (H 0 ltac:(simpl; lia)).
  apply IH; intros i Hi; exact (H (S i) ltac:(simpl; lia)).
Qed.

Lemma quantity_question_recognised : forall d,
  d <> [] -> forallb is_digit d = true ->
  re_search Pat.quantity (quantity_prefix ++ d) = true.
Proof.
  intros [|x t] Hne Hd; [congruence|].
  assert (Hx : is_digit x = true) by (simpl in Hd; apply andb_prop in Hd; tauto).
  assert (Hs : is_space x = false) by (apply digit_not_space, Hx).
  unfold re_search.
  assert (H : exists v, m Pat.quantity (quantity_prefix ++ x :: t) []
                          (fun _ cs => Some cs) = Some v).
  { change (quantity_prefix ++ x :: t) with
      (la "orders" ++ " "%char :: la "with quantity" ++
       " "%char :: ">"%char :: " "%char :: x :: t).
    unfold Pat.quantity; rewrite m_cat_eq; eexists; apply m_opt_some.
    rewrite m_group_eq, m_cat_eq, m_lits_app; cbv beta.
    rewrite plus_space_one by reflexivity; cbv beta.
    rewrite m_cat_eq, m_lits_app; cbv beta.
    rewrite m_cat_eq, plus_space_one by reflexivity; cbv beta.
    rewrite m_cat_eq, m_lit_eq; cbv beta.
    rewrite m_cat_eq; apply star_space_one; [reflexivity|exact Hs|]; cbv beta.
    apply plus_digits; [discriminate|exact Hd|reflexivity]. }
  destruct H as [v H]; rewrite (search_here _ _ _ H); reflexivity.
Qed.

Lemma quantity_question_capture : forall d,
  d <> [] -> forallb is_digit d = true ->
  exists v, findall_first Pat.quantity_num (quantity_prefix ++ d) = Some v /\
            group v 1 = d.
Proof.
  intros [|x t] Hne Hd; [congruence|].
  assert (Hx : is_digit x = true) by (simpl in Hd; apply andb_prop in Hd; tauto).
  assert (Hs : is_space x = false) by (apply digit_not_space, Hx).
  unfold findall_first.
  change (quantity_prefix ++ x :: t) with
    (la "orders with " ++ (la "quantity" ++ " "%char :: ">"%char :: " "%char :: x :: t)).
  rewrite search_app_skip
    by (intros i Hi; simpl in Hi; do 12 (destruct i as [|i]; [reflexivity|]); lia).
  eexists; split.
  - apply search_here.
    unfold Pat.quantity_num; rewrite m_cat_eq, m_lits_app; cbv beta.
    rewrite m_cat_eq; apply star_space_one; [reflexivity|reflexivity|]; cbv beta.
    rewrite m_cat_eq, m_lit_eq; cbv beta.
    rewrite m_cat_eq; apply star_space_one; [reflexivity|exact Hs|]; cbv beta.
    rewrite m_group_eq; apply plus_digits; [discriminate|exact Hd|reflexivity].
  - unfold group; simpl; rewrite firstn_all; reflexivity.
Qed.

(** ** The pipeline *)

Lemma local_generate_sql_template : forall nlp question schema,
  local_generate_sql nlp question schema = generate_sql_from_template question.
Proof.
  intros nlp question schema; unfold local_generate_sql.
  destruct (String.eqb (generate_sql_from_template question) "") eqn:E.
  - apply String.eqb_eq in E; exfalso; exact (generate_nonempty question E).
  - reflexivity.
Qed.

Lemma sentinel_when_no_rule : forall nlp question schema,
  first_match rules (normalize (la question)) = None ->
  local_generate_sql nlp question schema = Sql.no_match.
Proof.
  intros nlp question schema H.
  rewrite local_generate_sql_template; unfold generate_sql_from_template.
  fold (la question); rewrite H; reflexivity.
Qed.

Lemma re_search_lits : forall p s, re_search (lits p) s = contains (la p) s.
Proof.
  intros p s; unfold re_search; induction s as [|c t IH];
    simpl search; rewrite m_lits; simpl contains;
    destruct (prefixb (la p) _); simpl; auto.
Qed.

Lemma split_rules_at_between :
  rules = firstn 11 rules ++ Rule.orders_between :: skipn 12 rules.
Proof. reflexivity. Qed.

(** * Claims *)

(** ** Normalisation *)

(** C9: normalisation ([question.lower().strip()]) is idempotent. *)
Theorem normalize_idempotent : forall q, normalize (normalize q) = normalize q.
Proof.
  intro q; unfold normalize.
  rewrite <- strip_lower, lower_idem, strip_idem; reflexivity.
Qed.

(** ** The resolver *)

(** C10: the resolver is a total function of the question alone and
    returns either the output of one of the rule blocks or the no-match
    sentinel. *)
Theorem resolver_total : forall question,
  (first_match rules (normalize (la question)) = None /\
   generate_sql_from_template question = Sql.no_match) \/
  (exists r, In r rules /\
     r (normalize (la question)) = Some (generate_sql_from_template question)).
Proof.
  intro question; unfold generate_sql_from_template; fold (la question).
  destruct (first_match rules (normalize (la question))) as [sql|] eqn:E.
  - right; exact (first_match_some _ _ _ E).
  - left; split; reflexivity.
Qed.

(** C4 (counterexample): the orders-per-day block matches
    "disorders per day", where "orders" occurs only inside "disorders". *)
Lemma disorders_matches_orders_rule :
  Rule.orders_per_day (normalize (la "disorders per day")) = Some Sql.orders_per_day /\
  generate_sql_from_template "disorders per day" = Sql.orders_per_day.
Proof. split; vm_compute; reflexivity. Qed.

(** C4 (amended): recognition is an unanchored [re.search] without word
    boundaries; for a literal trigger phrase it is substring containment,
    so "disorders per day" resolves to the orders-per-day query. *)
Theorem literal_rule_is_substring_search :
  (forall p s, re_search (lits p) s = contains (la p) s) /\
  generate_sql_from_template "disorders per day" = Sql.orders_per_day.
Proof.
  split; [exact re_search_lits|vm_compute; reflexivity].
Qed.

(** C5 (counterexample): the between block recognises
    "orders between  and y" but its capture is absent; no default is used
    and the question ends with the no-match sentinel. *)
Lemma between_capture_absent_no_default :
  re_search Pat.orders_between (normalize (la "orders between  and y")) = true /\
  findall_first Pat.between_dates (normalize (la "orders between  and y")) = None /\
  generate_sql_from_template "orders between  and y" = Sql.no_match.
Proof. repeat split; vm_compute; reflexivity. Qed.

(** C5 (amended): when the capture of a capturing block is absent
    ([findall] returns []), the block does not return; there is no default
    value and resolution goes on with the later blocks. *)
Theorem absent_capture_falls_through : forall question,
  let q := normalize (la question) in
  (findall_first Pat.quantity_num q = None -> Rule.quantity q = None) /\
  (findall_first Pat.more_than_num q = None -> Rule.users_more_than q = None) /\
  (findall_first Pat.between_dates q = None -> Rule.orders_between q = None) /\
  (first_match (firstn 11 rules) q = None ->
   findall_first Pat.between_dates q = None ->
   generate_sql_from_template question =
   match first_match (skipn 12 rules) q with Some sql => sql | None => Sql.no_match end).
Proof.
  intros question q.
  assert (Hb : findall_first Pat.between_dates q = None -> Rule.orders_between q = None)
    by (intro H; unfold Rule.orders_between; rewrite H;
        destruct (re_search _ _); reflexivity).
  repeat split.
  - intro H; unfold Rule.quantity; rewrite H; destruct (re_search _ _); reflexivity.
  - intro H; unfold Rule.users_more_than; rewrite H; destruct (re_search _ _); reflexivity.
  - exact Hb.
  - intros H1 H2; unfold generate_sql_from_template; fold (la question); fold q.
    rewrite split_rules_at_between, first_match_app by exact H1.
    simpl first_match; rewrite (Hb H2); reflexivity.
Qed.

Lemma absent_capture_falls_through_witness :
  first_match (firstn 11 rules) (normalize (la "orders between  and y")) = None /\
  findall_first Pat.between_dates (normalize (la "orders between  and y")) = None /\
  generate_sql_from_template "orders between  and y" = Sql.no_match.
Proof.
  assert (H1 : first_match (firstn 11 rules) (normalize (la "orders between  and y")) = None)
    by (vm_compute; reflexivity).
  assert (H2 : findall_first Pat.between_dates (normalize (la "orders between  and y")) = None)
    by (vm_compute; reflexivity).
  split; [exact H1|split; [exact H2|]].
  destruct (absent_capture_falls_through "orders between  and y") as (_ & _ & _ & H).
  rewrite (H H1 H2); vm_compute; reflexivity.
Defined.

(** C6 (counterexample): the between block (earlier) and the
    orders-by-category block (later) both recognise the question, yet the
    result is the later block's query: the earlier block's capture is
    absent. *)
Lemma earlier_rule_skipped_when_capture_absent :
  re_search Pat.orders_between
    (normalize (la "orders between  and y orders by category")) = true /\
  re_search Pat.orders_by_category
    (normalize (la "orders between  and y orders by category")) = true /\
  first_match (firstn 11 rules)
    (normalize (la "orders between  and y orders by category")) = None /\
  generate_sql_from_template "orders between  and y orders by category"
    = Sql.orders_by_category /\
  (forall s e, generate_sql_from_template "orders between  and y orders by category"
               <> Sql.orders_between s e).
Proof.
  assert (H : generate_sql_from_template "orders between  and y orders by category"
              = Sql.orders_by_category) by (vm_compute; reflexivity).
  split; [vm_compute; reflexivity|].
  split; [vm_compute; reflexivity|].
  split; [vm_compute; reflexivity|].
  split; [exact H|].
  intros s e E; rewrite H in E; apply (f_equal (String.get 10)) in E.
    simpl in E; discriminate.
Qed.

(** C6 (amended): the result is the output of the earliest block that
    returns; blocks before it either do not recognise the question or have
    an absent capture. *)
Theorem first_returning_block_wins : forall question i r sql,
  let q := normalize (la question) in
  nth_error rules i = Some r -> r q = Some sql ->
  (forall j r', j < i -> nth_error rules j = Some r' -> r' q = None) ->
  generate_sql_from_template question = sql.
Proof.
  intros question i r sql q Hi Hr Hbefore.
  unfold generate_sql_from_template; fold (la question); fold q.
  rewrite (first_match_nth rules i r q sql Hi Hr Hbefore); reflexivity.
Qed.

Lemma first_returning_block_wins_witness :
  Rule.top_users (normalize (la "top customers by revenue per category")) = Some Sql.top_users /\
  generate_sql_from_template "top customers by revenue per category" = Sql.top_category.
Proof.
  split; [vm_compute; reflexivity|].
  apply (first_returning_block_wins "top customers by revenue per category" 2
           Rule.top_category Sql.top_category); [reflexivity|vm_compute; reflexivity|].
  intros j r' Hj Hr'; destruct j as [|[|j]]; [| |lia];
    inversion Hr'; subst; vm_compute; reflexivity.
Defined.

(** C7: "orders with quantity > N", for every non-empty string N of
    decimal digits, is resolved by the quantity block, whose query carries
    N as the WHERE threshold. *)
Theorem quantity_threshold_in_query : forall N : string,
  N <> ""%string -> forallb is_digit (la N) = true ->
  Rule.quantity (normalize (la ("orders with quantity > " ++ N)%string))
    = Some (Sql.quantity N) /\
  generate_sql_from_template ("orders with quantity > " ++ N)%string = Sql.quantity N.
Proof.
  intros N HN Hd.
  assert (Hne : la N <> []) by (destruct N; [congruence|discriminate]).
  assert (Hq : normalize (la ("orders with quantity > " ++ N)%string)
               = quantity_prefix ++ la N)
    by (rewrite la_app; apply normalize_quantity_question; assumption).
  assert (H9 : Rule.quantity (quantity_prefix ++ la N) = Some (Sql.quantity N)).
  { unfold Rule.quantity; rewrite quantity_question_recognised by assumption.
    destruct (quantity_question_capture (la N) Hne Hd) as (v & Hv & Hg).
    rewrite Hv, Hg; unfold la; rewrite string_of_list_ascii_of_string; reflexivity. }
  split; [rewrite Hq; exact H9|].
  unfold generate_sql_from_template; fold (la ("orders with quantity > " ++ N)%string).
  rewrite Hq.
  destruct (quantity_question_early_rules (la N) Hd)
    as (H1 & H2 & H3 & H4 & H5 & H6 & H7 & H8).
  unfold rules; cbn [first_match].
  rewrite H1, H2, H3, H4, H5, H6, H7, H8, H9; reflexivity.
Qed.

Lemma quantity_threshold_in_query_witness :
  generate_sql_from_template "orders with quantity > 100" = Sql.quantity "100" /\
  generate_sql_from_template "orders with quantity > 5" = Sql.quantity "5".
Proof.
  split.
  - exact (proj2 (quantity_threshold_in_query "100" ltac:(discriminate) eq_refl)).
  - exact (proj2 (quantity_threshold_in_query "5" ltac:(discriminate) eq_refl)).
Defined.

(** ** The pipeline *)

(** C2: [local_generate_sql] always returns the template result: that
    result is never the empty string, so the truthiness test of line 11
    always succeeds and the model is never consulted. *)
Theorem local_generate_sql_is_template : forall nlp question schema,
  local_generate_sql nlp question schema = generate_sql_from_template question.
Proof. exact local_generate_sql_template. Qed.

(** C1 (divergence): on every question no rule matches, the pipeline
    [local_generate_sql] returns the no-match sentinel itself, whatever the
    model would produce; the fallback never runs. *)
Theorem pipeline_returns_sentinel_on_no_match : forall nlp question schema,
  first_match rules (normalize (la question)) = None ->
  local_generate_sql nlp question schema = Sql.no_match.
Proof. exact sentinel_when_no_rule. Qed.

Lemma pipeline_returns_sentinel_on_no_match_witness :
  first_match rules (normalize (la "asdkjasd random text")) = None /\
  local_generate_sql (fun _ => Some "SQL: SELECT name FROM users;")
    "asdkjasd random text" "" = Sql.no_match.
Proof.
  split; [vm_compute; reflexivity|].
  apply pipeline_returns_sentinel_on_no_match; vm_compute; reflexivity.
Defined.

(** C8 (divergence): a question that normalises to the empty string (the
    empty or a whitespace-only question) matches no rule, and the pipeline
    returns the no-match sentinel, not the default query. *)
Theorem empty_question_yields_sentinel : forall nlp question schema,
  normalize (la question) = [] ->
  first_match rules (normalize (la question)) = None /\
  local_generate_sql nlp question schema = Sql.no_match /\
  local_generate_sql nlp question schema <> default_sql.
Proof.
  intros nlp question schema H.
  assert (Hn : first_match rules (normalize (la question)) = None)
    by (rewrite H; vm_compute; reflexivity).
  split; [exact Hn|].
  rewrite (sentinel_when_no_rule nlp question schema Hn).
  split; [reflexivity|discriminate].
Qed.

Lemma empty_question_yields_sentinel_witness :
  local_generate_sql (fun _ => None) "" "" = Sql.no_match /\
  local_generate_sql (fun _ => None) " 	 " "" = Sql.no_match.
Proof.
  split.
  - apply (empty_question_yields_sentinel (fun _ => None) "" ""); vm_compute; reflexivity.
  - apply (empty_question_yields_sentinel (fun _ => None) " 	 " ""); vm_compute; reflexivity.
Defined.

(** C3 (counterexample): "how many users" is matched by a rule, but when
    schema introspection fails the [/ask] handler answers with an error:
    it introspects before resolving. *)
Lemma schema_failure_blocks_rule_match :
  generate_sql_from_template "how many users" = Sql.count_users /\
  ask_data (fun _ => None) (fun _ => Some []) None "how many users" = Error.
Proof. split; vm_compute; reflexivity. Qed.

(** C3 (amended): resolution never reads the schema (its result is the
    same for every schema text, and every introspected database gives the
    same response); but [ask_data] runs introspection first for every
    question, so its failure turns every request into an error. *)
Theorem resolution_independent_of_schema : forall nlp run_query question,
  (forall s1 s2, local_generate_sql nlp question s1 = local_generate_sql nlp question s2) /\
  ask_data nlp run_query None question = Error /\
  (forall t1 t2, ask_data nlp run_query (Some t1) question
                 = ask_data nlp run_query (Some t2) question).
Proof.
  intros nlp run_query question; repeat split.
  - intros s1 s2; rewrite !local_generate_sql_template; reflexivity.
  - intros t1 t2; unfold ask_data, get_schema_metadata.
    rewrite !local_generate_sql_template; reflexivity.
Qed.

(** ** Examples *)

Example ex_users : generate_sql_from_template "How many  Users?" = Sql.count_users.
Proof. vm_compute. reflexivity. Qed.
Example ex_q100 : generate_sql_from_template "orders with quantity > 100" = Sql.quantity "100".
Proof. vm_compute. reflexivity. Qed.
Example ex_cat : generate_sql_from_template "which category has the highest revenue" = Sql.top_category.
Proof. vm_compute. reflexivity. Qed.
Example ex_between : generate_sql_from_template "Orders between 2024-01-01 and 2024-02-01 " = Sql.orders_between "2024-01-01" "2024-02-01".
Proof. vm_compute. reflexivity. Qed.
Example ex_more : generate_sql_from_template "users with more than 3 orders" = Sql.users_more_than "3".
Proof. vm_compute. reflexivity. Qed.
Example ex_dis : generate_sql_from_template "disorders per day" = Sql.orders_per_day.
Proof. vm_compute. reflexivity. Qed.
Example ex_none : generate_sql_from_template "asdkjasd random text" = Sql.no_match.
Proof. vm_compute. reflexivity. Qed.
Example ex_fall : generate_sql_from_template "orders between  and y orders by category" = Sql.orders_by_category.
Proof. vm_compute. reflexivity. Qed.

Example ex_extract : extract_sql "blah SQL: nothing
  SELECT name FROM users  
x" = Some "SELECT name FROM users".
Proof. vm_compute. reflexivity. Qed.

(** * Further properties of the backend *)

Lemma string_append_assoc : forall a b c : string,
  (a ++ (b ++ c))%string = ((a ++ b) ++ c)%string.
Proof. induction a as [|x a IH]; intros b c; simpl; [reflexivity|rewrite IH; reflexivity]. Qed.

Lemma string_append_empty : forall a : string, (a ++ "")%string = a.
Proof. induction a as [|x a IH]; simpl; [reflexivity|rewrite IH; reflexivity]. Qed.

Lemma concat_empty_cons : forall x l,
  String.concat "" (x :: l) = (x ++ String.concat "" l)%string.
Proof. intros x [|y l]; simpl; [rewrite string_append_empty|]; reflexivity. Qed.

Lemma fold_append_concat : forall A (f : A -> string) l acc,
  fold_left (fun a x => (a ++ f x)%string) l acc =
  (acc ++ String.concat "" (map f l))%string.
Proof.
  intros A f; induction l as [|x l IH]; intro acc; cbn [fold_left map].
  - simpl; rewrite string_append_empty; reflexivity.
  - rewrite IH, concat_empty_cons, string_append_assoc; reflexivity.
Qed.

Lemma fold_left_ext_fun : forall A B (f g : A -> B -> A) l a,
  (forall x y, f x y = g x y) -> fold_left f l a = fold_left g l a.
Proof.
  intros A B f g; induction l as [|y l IH]; intros a H; simpl; [reflexivity|].
  rewrite H; apply IH, H.
Qed.

Lemma schema_text_of_tables : forall tables,
  get_schema_metadata (Some tables) =
  Some (String.concat "" (map table_block tables)).
Proof.
  intro tables; unfold get_schema_metadata; f_equal.
  transitivity (fold_left (fun a t => (a ++ table_block t)%string) tables "").
  - apply fold_left_ext_fun; intros acc [name cols].
    unfold table_block; simpl fst; simpl snd.
    erewrite fold_left_ext_fun with (g := fun a x => (a ++ column_line x)%string)
      by (intros a [c0 c1]; reflexivity).
    rewrite (fold_append_concat _ column_line).
    rewrite !string_append_assoc; reflexivity.
  - rewrite fold_append_concat; reflexivity.
Qed.

(** [get_schema_metadata] lists every table, in the order [SHOW TABLES]
    gives them, as a "Table:" line followed by one "  - name (type)" line
    per column in [DESCRIBE] order; an empty database gives "". *)
Theorem get_schema_metadata_blocks : forall tables,
  get_schema_metadata (Some tables) =
  Some (String.concat "" (map table_block tables)).
Proof. exact schema_text_of_tables. Qed.

Lemma normalize_idem : forall q, normalize (normalize q) = normalize q.
Proof.
  intro q; unfold normalize.
  rewrite <- strip_lower, lower_idem, strip_idem; reflexivity.
Qed.

(** The resolver only sees the normalised question: lower-casing the
    question, stripping its surrounding whitespace, or replacing it by its
    normal form never changes the query. *)
Theorem generate_normal_form_invariant : forall question,
  generate_sql_from_template (string_of_list_ascii (lower (la question)))
    = generate_sql_from_template question /\
  generate_sql_from_template (string_of_list_ascii (strip (la question)))
    = generate_sql_from_template question /\
  generate_sql_from_template (string_of_list_ascii (normalize (la question)))
    = generate_sql_from_template question.
Proof.
  intro question; unfold generate_sql_from_template;
    rewrite !list_ascii_of_string_of_list_ascii; fold (la question).
  assert (H1 : normalize (lower (la question)) = normalize (la question))
    by (unfold normalize; rewrite lower_idem; reflexivity).
  assert (H2 : normalize (strip (la question)) = normalize (la question))
    by (unfold normalize; rewrite <- strip_lower, strip_idem; reflexivity).
  rewrite H1, H2, normalize_idem; repeat split.
Qed.

Lemma rstrip_nonspace_cons : forall c t,
  is_space c = false -> rstrip (c :: t) = c :: rstrip t.
Proof.
  intros c t H; rewrite rstrip_cons; destruct (rstrip t); [rewrite H|]; reflexivity.
Qed.

Lemma rstrip_cons_nonempty : forall c t,
  rstrip t <> [] -> rstrip (c :: t) = c :: rstrip t.
Proof. intros c t H; rewrite rstrip_cons; destruct (rstrip t); [congruence|reflexivity]. Qed.

Lemma lstrip_app : forall l r,
  lstrip (l ++ r) = match lstrip l with [] => lstrip r | l' => l' ++ r end.
Proof.
  induction l as [|c l IH]; intro r; simpl; [reflexivity|].
  destruct (is_space c); [apply IH|reflexivity].
Qed.

Lemma not_sentinel_head : forall c t,
  is_space c = false -> Ascii.eqb "N" c = false ->
  prefixb sentinel_prefix (rstrip ("-" :: "-" :: " " :: c :: t)%char) = false.
Proof.
  intros c t Hs Hn.
  rewrite !rstrip_nonspace_cons by reflexivity.
  rewrite rstrip_cons_nonempty by (rewrite rstrip_nonspace_cons by exact Hs; discriminate).
  rewrite rstrip_nonspace_cons by exact Hs.
  unfold sentinel_prefix, la; cbn [list_ascii_of_string prefixb].
  rewrite Hn; reflexivity.
Qed.

Ltac comment_sql_not_sentinel :=
  unfold strip; rewrite !la_app, lstrip_app;
  match goal with
  | |- context [lstrip (la ?L)] =>
      let y := eval vm_compute in (lstrip (la L)) in
      change (lstrip (la L)) with y
  end;
  cbv iota; apply not_sentinel_head; reflexivity.

(** Every query a rule block returns, once stripped, does not start with
    "-- No matching SQL". *)
Lemma rule_sql_not_sentinel : forall r q sql,
  In r rules -> r q = Some sql -> prefixb sentinel_prefix (strip (la sql)) = false.
Proof.
  intros r q sql Hin; simpl in Hin.
  repeat (destruct Hin as [<-|Hin];
    [ cbv beta delta [Rule.count_users Rule.total_revenue Rule.top_category
        Rule.top_users Rule.top_products Rule.revenue_over_time
        Rule.orders_per_day Rule.monthly_revenue Rule.quantity
        Rule.orders_by_user Rule.users_more_than Rule.orders_between
        Rule.orders_by_category Rule.users_by_signup];
      repeat match goal with
             | |- context [if ?b then _ else _] => destruct b
             | |- context [match ?x with Some _ => _ | None => _ end] => destruct x
             end;
      intro H; inversion H; subst;
      first [ vm_compute; reflexivity
            | unfold Sql.quantity; comment_sql_not_sentinel
            | unfold Sql.users_more_than; comment_sql_not_sentinel
            | unfold Sql.orders_between; comment_sql_not_sentinel ]
    | ]).
  contradiction.
Qed.

(** When a rule matches and schema introspection succeeds, [/ask]
    executes exactly the rule's query and returns its rows, or an error if
    the execution raises; the sentinel check never intercepts it. *)
Theorem ask_data_runs_matched_query : forall nlp run_query tables question,
  first_match rules (normalize (la question)) <> None ->
  ask_data nlp run_query (Some tables) question =
  match run_query (generate_sql_from_template question) with
  | Some rows => Result rows
  | None => Error
  end.
Proof.
  intros nlp run_query tables question H.
  unfold ask_data; rewrite schema_text_of_tables; cbv iota beta.
  rewrite local_generate_sql_template.
  unfold generate_sql_from_template at 1; fold (la question).
  destruct (first_match rules (normalize (la question))) as [sql|] eqn:E; [|congruence].
  destruct (first_match_some _ _ _ E) as (r & Hin & Hr).
  fold sentinel_prefix; rewrite (rule_sql_not_sentinel r _ sql Hin Hr).
  unfold generate_sql_from_template; fold (la question); rewrite E; reflexivity.
Qed.

Lemma ask_data_runs_matched_query_witness :
  ask_data (fun _ => None) (fun _ => Some [[("total_users", "3")]])
    (Some [("users", [("id", "int")])]) "How many users?"
  = Result [[("total_users", "3")]].
Proof.
  rewrite ask_data_runs_matched_query by (vm_compute; discriminate).
  vm_compute; reflexivity.
Defined.

(** When no rule matches and schema introspection succeeds, [/ask]
    answers with the sentinel as a message and executes nothing: the
    response is the same whatever the database would return. *)
Theorem ask_data_no_match_message : forall nlp run_query tables question,
  first_match rules (normalize (la question)) = None ->
  ask_data nlp run_query (Some tables) question = Message Sql.no_match.
Proof.
  intros nlp run_query tables question H.
  unfold ask_data; rewrite schema_text_of_tables; cbv iota beta.
  rewrite (sentinel_when_no_rule nlp question _ H).
  vm_compute; reflexivity.
Qed.

Lemma ask_data_no_match_message_witness :
  ask_data (fun _ => None) (fun _ => Some []) (Some []) "asdkjasd random text"
  = Message Sql.no_match.
Proof.
  apply ask_data_no_match_message; vm_compute; reflexivity.
Defined.



Lemma contains_split : forall p s,
  contains p s = true -> exists a b, s = a ++ p ++ b.
Proof.
  intros p; induction s as [|c t IH]; intro H.
  - destruct p as [|x p]; [exists [], []; reflexivity|discriminate].
  - simpl in H; apply orb_true_iff in H; destruct H as [H|H].
    + clear IH; exists [].
      revert H; generalize (c :: t) as u; clear c t.
      induction p as [|x p IHp]; intros u H; [exists u; reflexivity|].
      destruct u as [|y u]; [discriminate|].
      simpl in H; apply andb_prop in H; destruct H as [Hxy H].
      apply Ascii.eqb_eq in Hxy; subst y.
      destruct (IHp u H) as [b Hb]; exists b; simpl; simpl in Hb; congruence.
    + destruct (IH H) as (a & b & ->); exists (c :: a), b; reflexivity.
Qed.

Lemma search_app_some : forall r a b v,
  search r b = Some v -> exists v', search r (a ++ b) = Some v'.
Proof.
  intros r a b v H; induction a as [|c a IH]; [exists v; exact H|].
  destruct IH as [v' IH]; simpl app; simpl search; unfold orelse.
  destruct (m r (c :: a ++ b) [] _); [eexists; reflexivity|exists v'; exact IH].
Qed.

Lemma m_alt_left : forall A r1 r2 s cs (k : list ascii -> caps -> option A) v,
  m r1 s cs k = Some v -> m (Alt r1 r2) s cs k = Some v.
Proof. intros A r1 r2 s cs k v H; simpl; rewrite H; reflexivity. Qed.

Lemma m_alt_right : forall A r1 r2 s cs (k : list ascii -> caps -> option A) v,
  m r1 s cs k = None -> m r2 s cs k = Some v -> m (Alt r1 r2) s cs k = Some v.
Proof. intros A r1 r2 s cs k v H1 H2; simpl; rewrite H1; exact H2. Qed.

Lemma users_count_at : forall pre rest,
  pre = la "how many" \/ pre = la "number of" ->
  exists v, m Pat.users_count (pre ++ " "%char :: la "users" ++ rest) []
              (fun _ cs => Some cs) = Some v.
Proof.
  intros pre rest Hpre; unfold Pat.users_count; rewrite m_cat_eq, m_group_eq.
  destruct Hpre as [->| ->].
  - eexists; apply m_alt_left; rewrite m_lits_app; cbv beta.
    rewrite m_cat_eq, plus_space_one by reflexivity; cbv beta.
    rewrite m_lits_app; reflexivity.
  - eexists; apply m_alt_right.
    + rewrite m_lits; reflexivity.
    + rewrite m_lits_app; cbv beta.
      rewrite m_cat_eq, plus_space_one by reflexivity; cbv beta.
      rewrite m_lits_app; reflexivity.
Qed.

(** Any question whose normalized text contains "how many users" or
    "number of users" (also inside longer text) resolves to the user-count
    query: the first rule always fires on such a question. *)
Theorem users_count_phrase_resolves : forall question,
  contains (la "how many users") (normalize (la question)) = true \/
  contains (la "number of users") (normalize (la question)) = true ->
  generate_sql_from_template question = Sql.count_users.
Proof.
  intros question H.
  assert (Hr : re_search Pat.users_count (normalize (la question)) = true).
  { destruct H as [H|H]; apply contains_split in H; destruct H as (a & b & Hab);
      rewrite Hab; unfold re_search.
    - destruct (users_count_at (la "how many") b (or_introl eq_refl)) as [v Hv].
      destruct (search_app_some _ a _ _ (search_here _ _ _ Hv)) as [v' Hv'].
      change (la "how many users" ++ b) with (la "how many" ++ " "%char :: la "users" ++ b).
      rewrite Hv'; reflexivity.
    - destruct (users_count_at (la "number of") b (or_intror eq_refl)) as [v Hv].
      destruct (search_app_some _ a _ _ (search_here _ _ _ Hv)) as [v' Hv'].
      change (la "number of users" ++ b) with (la "number of" ++ " "%char :: la "users" ++ b).
      rewrite Hv'; reflexivity. }
  unfold generate_sql_from_template; fold (la question); simpl first_match.
  unfold Rule.count_users at 1; rewrite Hr; reflexivity.
Qed.

Lemma users_count_phrase_resolves_witness :
  generate_sql_from_template "  Please tell me: NUMBER OF USERS who ordered top products?"
  = Sql.count_users.
Proof.
  apply users_count_phrase_resolves; right; vm_compute; reflexivity.
Defined.

Lemma In_lstrip : forall x l, In x (lstrip l) -> In x l.
Proof.
  intros x; induction l as [|c t IH]; simpl; [tauto|].
  destruct (is_space c); [intro H; right; apply IH, H|tauto].
Qed.

Lemma In_strip : forall x l, In x (strip l) -> In x l.
Proof.
  intros x l H; unfold strip, rstrip in H.
  apply in_rev, In_lstrip, in_rev, In_lstrip in H; exact H.
Qed.

(** Python's [s.split("\n")] never leaves a newline inside a piece. *)
Lemma split_go_newline_free : forall f s cur x,
  length s < f -> ~ In "010"%char cur ->
  In x (split_go f ["010"%char] s cur) -> ~ In "010"%char x.
Proof.
  induction f as [|f IH]; intros s cur x Hlen Hcur Hx; [simpl in Hlen; lia|].
  destruct s as [|c t].
  - destruct Hx as [<-|[]]; rewrite <- in_rev; exact Hcur.
  - cbn [split_go] in Hx; destruct (prefixb ["010"%char] (c :: t)) eqn:E.
    + destruct Hx as [<-|Hx]; [rewrite <- in_rev; exact Hcur|].
      apply (IH t [] x); simpl in *; [lia|tauto|exact Hx].
    + apply (IH t (c :: cur) x); [simpl in Hlen; lia| |exact Hx].
      intros [Hc|H]; [subst c|tauto].
      simpl in E; discriminate.
Qed.

Lemma contains_prefix : forall p s, prefixb p s = true -> contains p s = true.
Proof. intros p [|c t] H; simpl; rewrite H; reflexivity. Qed.

Lemma contains_middle : forall p a b, contains p (a ++ p ++ b) = true.
Proof.
  intros p a b; induction a as [|c a IH].
  - exact (contains_prefix _ _ (prefixb_app p b)).
  - simpl; rewrite IH, orb_true_r; reflexivity.
Qed.

Lemma contains_lstrip : forall c p l,
  is_space c = false -> contains (c :: p) l = true -> contains (c :: p) (lstrip l) = true.
Proof.
  intros c p l Hc; induction l as [|d t IH]; simpl; intro H; [exact H|].
  destruct (is_space d) eqn:Ed; [|exact H].
  apply IH; destruct (Ascii.eqb c d) eqn:E.
  - apply Ascii.eqb_eq in E; subst; congruence.
  - exact H.
Qed.

Lemma rstrip_app_keep : forall x y d,
  x <> [] -> is_space (last x d) = false -> rstrip (x ++ y) = x ++ rstrip y.
Proof.
  induction x as [|c x IH]; intros y d Hx Hl; [congruence|].
  destruct x as [|c' x].
  - simpl; apply rstrip_nonspace_cons, Hl.
  - change ((c :: c' :: x) ++ y) with (c :: ((c' :: x) ++ y)).
    rewrite rstrip_cons_nonempty; rewrite (IH y d) by (discriminate || exact Hl);
      [reflexivity|discriminate].
Qed.

Lemma last_app_nonempty : forall (a p : list ascii) d,
  p <> [] -> last (a ++ p) d = last p d.
Proof.
  induction a as [|c a IH]; intros p d Hp; [reflexivity|].
  simpl app; rewrite <- (IH p d Hp); destruct (a ++ p) eqn:E; [|reflexivity].
  apply app_eq_nil in E; tauto.
Qed.

Lemma contains_rstrip : forall p l d,
  p <> [] -> is_space (last p d) = false ->
  contains p l = true -> contains p (rstrip l) = true.
Proof.
  intros p l d Hp Hl H; apply contains_split in H; destruct H as (a & b & ->).
  rewrite app_assoc, (rstrip_app_keep (a ++ p) b d).
  - rewrite <- app_assoc; apply contains_middle.
  - destruct p; [congruence|]; destruct a; discriminate.
  - rewrite last_app_nonempty by exact Hp; exact Hl.
Qed.

(** Lines 27-31: a line the generative fallback extracts from the model's
    text contains "select" in any letter case, carries no leading or
    trailing whitespace, and is a single line. *)
Theorem extract_sql_single_select_line : forall response sql,
  extract_sql response = Some sql ->
  contains (la "select") (lower (la sql)) = true /\
  strip (la sql) = la sql /\
  ~ In "010"%char (la sql).
Proof.
  intros response sql H; unfold extract_sql in H.
  destruct (contains _ _); [|discriminate].
  match type of H with
  | match find ?f ?ls with _ => _ end = _ =>
      destruct (find f ls) as [line|] eqn:E; [|discriminate]
  end.
  injection H as <-; apply find_some in E; destruct E as [Hin Hsel].
  unfold la; rewrite list_ascii_of_string_of_list_ascii; split; [|split].
  - rewrite <- strip_lower; unfold strip.
    apply (contains_rstrip _ _ "a"%char); [discriminate|reflexivity|].
    apply contains_lstrip; [reflexivity|exact Hsel].
  - apply strip_idem.
  - intro Hn; apply In_strip in Hn; revert Hn.
    unfold split_on in Hin; refine (split_go_newline_free _ _ [] _ _ (fun H => H) Hin); lia.
Qed.

Lemma extract_sql_single_select_line_witness :
  extract_sql "Question: x
SQL:
  -- query
  SeLeCt name FROM users;  
done" = Some "SeLeCt name FROM users;" /\
  contains (la "select") (lower (la "SeLeCt name FROM users;")) = true.
Proof.
  assert (H : extract_sql "Question: x
SQL:
  -- query
  SeLeCt name FROM users;  
done" = Some "SeLeCt name FROM users;") by (vm_compute; reflexivity).
  split; [exact H|apply (proj1 (extract_sql_single_select_line _ _ H))].
Defined.

(** *** The more-than-N-orders block *)

Lemma star_loop_digits_then : forall A (k : list ascii -> caps -> option A) v rest t fuel cs,
  length (t ++ rest) <= fuel -> forallb is_digit t = true ->
  match rest with c :: _ => is_digit c = false | [] => True end ->
  k rest cs = Some v ->
  star_loop true (fun s cs k => class_step is_digit s cs k) k fuel (t ++ rest) cs = Some v.
Proof.
  intros A k v rest; induction t as [|x t IH]; intros fuel cs Hl Ht Hr Hk.
  - destruct fuel; simpl; [exact Hk|].
    destruct rest as [|c r]; simpl; [exact Hk|]; rewrite Hr; exact Hk.
  - destruct fuel as [|f]; [simpl in Hl; lia|].
    simpl in Ht; apply andb_prop in Ht as [Hx Ht].
    simpl; rewrite Hx, ltb_succ.
    rewrite (IH f cs) by (simpl in Hl; lia || assumption); reflexivity.
Qed.

Lemma plus_digits_then : forall A d rest cs (k : list ascii -> caps -> option A) v,
  d <> [] -> forallb is_digit d = true ->
  match rest with c :: _ => is_digit c = false | [] => True end ->
  k rest cs = Some v ->
  m (Plus Digit) (d ++ rest) cs k = Some v.
Proof.
  intros A [|x t] rest cs k v Hd Ht Hr Hk; [congruence|].
  simpl in Ht; apply andb_prop in Ht as [Hx Ht].
  unfold Plus; rewrite m_cat_eq; simpl app; simpl m at 1; rewrite Hx.
  exact (star_loop_digits_then A k v rest t (length (t ++ rest)) cs (le_n _) Ht Hr Hk).
Qed.

Lemma star_any_skip : forall A pre s cs (k : list ascii -> caps -> option A) v,
  ~ In "010"%char pre -> k s cs = Some v ->
  exists v', m (Star Any) (pre ++ s) cs k = Some v'.
Proof.
  intros A pre; induction pre as [|c pre IH]; intros s cs k v Hpre Hk.
  - simpl app; simpl m; destruct (length s) as [|f]; cbn [star_loop];
      [eexists; exact Hk|]; unfold orelse;
      match goal with |- context [match ?x with Some _ => _ | None => _ end] =>
        destruct x end; eexists; [reflexivity|exact Hk].
  - destruct (IH s cs k v (fun H => Hpre (or_intror H)) Hk) as [v' Hv'].
    assert (Hc : is_newline c = false).
    { destruct (is_newline c) eqn:E; [|reflexivity].
      exfalso; apply Hpre; left; revert E; clear; unfold is_newline.
      intro E; apply Ascii.eqb_eq in E; congruence. }
    exists v'; simpl m; simpl m in Hv'; simpl app; simpl length.
    cbn [star_loop]; unfold orelse; simpl class_step; rewrite Hc; simpl negb; cbv iota beta.
    rewrite ltb_succ, Hv'; reflexivity.
Qed.

Lemma m_alt_group : forall A n a b t s cs (k : list ascii -> caps -> option A),
  m (Cat (Group n (Alt a b)) t) s cs k =
  orelse (m (Cat (Group n a) t) s cs k) (fun _ => m (Cat (Group n b) t) s cs k).
Proof. intros; rewrite !m_cat_eq, !m_group_eq; reflexivity. Qed.

Lemma search_alt_group : forall n a b t s,
  re_search (Cat (Group n a) t) s = false -> re_search (Cat (Group n b) t) s = false ->
  re_search (Cat (Group n (Alt a b)) t) s = false.
Proof.
  intros n a b t s; unfold re_search; induction s as [|c s IH]; cbn [search];
    rewrite m_alt_group; unfold orelse;
    destruct (m (Cat (Group n a) t) _ _ _), (m (Cat (Group n b) t) _ _ _);
    try discriminate; auto.
Qed.

Lemma not_in_around_digits : forall c p d q,
  is_digit c = false -> mem c p = false -> mem c q = false -> forallb is_digit d = true ->
  ~ In c (p ++ d ++ q).
Proof.
  intros c p d q Hc Hp Hq Hd Hin; rewrite app_assoc in Hin.
  apply in_app_or in Hin as [Hin|Hin].
  - exact (not_in_prefix_digits c p d Hc Hp Hd Hin).
  - assert (mem c q = true) by (apply existsb_exists; exists c;
      split; [exact Hin|apply Ascii.eqb_refl]); congruence.
Qed.

Ltac absent3 c :=
  rewrite (re_search_absent _ _ c);
  [ | apply mem_In; vm_compute; reflexivity
    | apply not_in_around_digits;
      [reflexivity | vm_compute; reflexivity | vm_compute; reflexivity | assumption]].

Lemma more_than_question_early_rules : forall d,
  forallb is_digit d = true ->
  let q := more_than_prefix ++ d ++ more_than_suffix in
  first_match (firstn 10 rules) q = None.
Proof.
  intros d Hd q; unfold q; cbn [firstn rules first_match].
  unfold Rule.count_users, Pat.users_count.
  rewrite search_alt_group; [| absent3 "y"%char; reflexivity | absent3 "b"%char; reflexivity].
  unfold Rule.total_revenue; absent3 "v"%char.
  unfold Rule.top_category; absent3 "v"%char; absent3 "c"%char.
  unfold Rule.top_users; absent3 "p"%char.
  unfold Rule.top_products; absent3 "p"%char.
  unfold Rule.revenue_over_time; absent3 "v"%char.
  unfold Rule.orders_per_day; absent3 "p"%char.
  unfold Rule.monthly_revenue; absent3 "y"%char.
  unfold Rule.quantity; absent3 "q"%char.
  unfold Rule.orders_by_user; absent3 "c"%char; absent3 "c"%char.
  reflexivity.
Qed.

Lemma normalize_more_than_question : forall d,
  forallb is_digit d = true ->
  normalize (more_than_prefix ++ d ++ more_than_suffix) =
  more_than_prefix ++ d ++ more_than_suffix.
Proof.
  intros d Hd; unfold normalize, lower; rewrite !map_app.
  change (map lower_char more_than_prefix) with more_than_prefix.
  change (map lower_char more_than_suffix) with more_than_suffix.
  fold (lower d); rewrite (lower_digits d Hd).
  unfold strip.
  change (lstrip (more_than_prefix ++ d ++ more_than_suffix))
    with (more_than_prefix ++ d ++ more_than_suffix).
  pose proof (rstrip_app_keep (more_than_prefix ++ d ++ more_than_suffix) [] "a"%char)
    as H; rewrite app_nil_r in H; rewrite H; [apply app_nil_r|discriminate|].
  rewrite app_assoc, last_app_nonempty by discriminate; reflexivity.
Qed.

Lemma not_newline_with : ~ In "010"%char (la " with ").
Proof. intro H; simpl in H; repeat (destruct H as [H|H]; [discriminate|]); exact H. Qed.

Lemma more_than_question_recognised : forall d,
  d <> [] -> forallb is_digit d = true ->
  re_search Pat.users_more_than (more_than_prefix ++ d ++ more_than_suffix) = true.
Proof.
  intros d Hne Hd; unfold re_search.
  assert (H : exists v, m Pat.users_more_than (more_than_prefix ++ d ++ more_than_suffix)
                          [] (fun _ cs => Some cs) = Some v).
  { change (more_than_prefix ++ d ++ more_than_suffix) with
      (la "users" ++ (la " with " ++ (la "more than " ++ d ++ more_than_suffix))).
    unfold Pat.users_more_than; rewrite m_cat_eq, m_lits_app; cbv beta.
    rewrite m_cat_eq; eapply star_any_skip; [exact not_newline_with|]; cbv beta.
    rewrite m_cat_eq, m_lits_app; cbv beta.
    rewrite m_cat_eq; apply plus_digits_then; [exact Hne|exact Hd|reflexivity|].
    reflexivity. }
  destruct H as [v H]; rewrite (search_here _ _ _ H); reflexivity.
Qed.

Lemma firstn_prefix_len : forall (d r : list ascii),
  firstn (length (d ++ r) - length r) (d ++ r) = d.
Proof.
  intros d r; rewrite length_app, Nat.add_sub, firstn_app, Nat.sub_diag, firstn_all.
  apply app_nil_r.
Qed.

Lemma more_than_question_capture : forall d,
  d <> [] -> forallb is_digit d = true ->
  exists v, findall_first Pat.more_than_num (more_than_prefix ++ d ++ more_than_suffix)
              = Some v /\ group v 1 = d.
Proof.
  intros d Hne Hd; unfold findall_first.
  change (more_than_prefix ++ d ++ more_than_suffix) with
    (la "users with " ++ (la "more than " ++ d ++ more_than_suffix)).
  rewrite search_app_skip
    by (intros i Hi; simpl in Hi; do 11 (destruct i as [|i]; [reflexivity|]); lia).
  eexists; split.
  - apply search_here.
    unfold Pat.more_than_num; rewrite m_cat_eq, m_lits_app; cbv beta.
    rewrite m_group_eq; apply plus_digits_then; [exact Hne|exact Hd|reflexivity|].
    reflexivity.
  - unfold group; cbn [find fst Nat.eqb]; exact (firstn_prefix_len d more_than_suffix).
Qed.

(** Lines 106-116: "users with more than N orders", for any non-empty run
    of digits N, resolves to the more-than query with the threshold N
    inserted verbatim; none of the ten earlier blocks fires on it. *)
Theorem more_than_threshold_in_query : forall N : string,
  N <> ""%string -> forallb is_digit (la N) = true ->
  generate_sql_from_template ("users with more than " ++ N ++ " orders")%string
    = Sql.users_more_than N.
Proof.
  intros N HN Hd.
  assert (Hne : la N <> []) by (destruct N; [congruence|discriminate]).
  assert (Hq : normalize (la ("users with more than " ++ N ++ " orders")%string)
               = more_than_prefix ++ la N ++ more_than_suffix)
    by (rewrite !la_app; apply normalize_more_than_question; exact Hd).
  unfold generate_sql_from_template; fold (la ("users with more than " ++ N ++ " orders")%string).
  rewrite Hq.
  replace rules with (firstn 10 rules ++ Rule.users_more_than :: skipn 11 rules)
    by reflexivity.
  rewrite first_match_app by exact (more_than_question_early_rules _ Hd).
  cbn [first_match]; unfold Rule.users_more_than at 1.
  rewrite more_than_question_recognised by assumption.
  destruct (more_than_question_capture (la N) Hne Hd) as (v & Hv & Hg).
  rewrite Hv, Hg; unfold la; rewrite string_of_list_ascii_of_string; reflexivity.
Qed.

Lemma more_than_threshold_in_query_witness :
  generate_sql_from_template "users with more than 42 orders" = Sql.users_more_than "42".
Proof.
  apply (more_than_threshold_in_query "42"); [discriminate|reflexivity].
Defined.

(** *** The between-dates block *)

Lemma m_any_eq : forall A c s cs (k : list ascii -> caps -> option A),
  is_newline c = false -> m Any (c :: s) cs k = k s cs.
Proof. intros A c s cs k H; simpl; rewrite H; reflexivity. Qed.

Lemma newline_free_head : forall c t, ~ In "010"%char (c :: t) -> is_newline c = false.
Proof.
  intros c t H; destruct (is_newline c) eqn:E; [|reflexivity].
  exfalso; apply H; left; unfold is_newline in E; apply Ascii.eqb_eq in E; congruence.
Qed.

Lemma m_lits_fail : forall A p s cs (k : list ascii -> caps -> option A),
  prefixb (la p) s = false -> m (lits p) s cs k = None.
Proof. intros A p s cs k H; rewrite m_lits, H; reflexivity. Qed.

Lemma lazy_any_loop : forall A (k : list ascii -> caps -> option A) v s cs pre fuel,
  length (pre ++ s) <= fuel -> ~ In "010"%char pre ->
  (forall i, i < length pre -> k (skipn i pre ++ s) cs = None) ->
  k s cs = Some v ->
  star_loop false (fun s cs k => class_step (fun c => negb (is_newline c)) s cs k)
    k fuel (pre ++ s) cs = Some v.
Proof.
  intros A k v s cs; induction pre as [|c pre IH]; intros fuel Hl Hn Hi Hk.
  - destruct fuel; simpl; [exact Hk|]; rewrite Hk; reflexivity.
  - destruct fuel as [|f]; [simpl in Hl; lia|].
    pose proof (Hi 0 ltac:(simpl; lia)) as H0; cbn [skipn] in H0.
    cbn [star_loop]; rewrite H0; simpl orelse.
    simpl app; simpl class_step.
    rewrite (newline_free_head c pre Hn); simpl negb; cbv iota.
    rewrite ltb_succ; apply IH.
    + simpl in Hl; lia.
    + intro H; apply Hn; right; exact H.
    + intros i Hi'; exact (Hi (S i) ltac:(simpl; lia)).
    + exact Hk.
Qed.

(** A lazy [.*?] stops at the first split where the rest of the pattern
    succeeds. *)
Lemma lazy_any_first : forall A (k : list ascii -> caps -> option A) v pre s cs,
  ~ In "010"%char pre ->
  (forall i, i < length pre -> k (skipn i pre ++ s) cs = None) ->
  k s cs = Some v ->
  m (LazyStar Any) (pre ++ s) cs k = Some v.
Proof.
  intros A k v pre s cs Hn Hi Hk.
  exact (lazy_any_loop A k v s cs pre (length (pre ++ s)) (le_n _) Hn Hi Hk).
Qed.

Lemma star_any_all : forall A (k : list ascii -> caps -> option A) v t fuel cs,
  length t <= fuel -> ~ In "010"%char t -> k [] cs = Some v ->
  star_loop true (fun s cs k => class_step (fun c => negb (is_newline c)) s cs k)
    k fuel t cs = Some v.
Proof.
  intros A k v; induction t as [|x t IH]; intros fuel cs Hl Ht Hk.
  - destruct fuel; simpl; exact Hk.
  - destruct fuel as [|f]; [simpl in Hl; lia|].
    cbn [star_loop]; simpl class_step.
    rewrite (newline_free_head x t Ht); simpl negb; cbv iota.
    rewrite ltb_succ.
    rewrite (IH f cs) by (simpl in Hl; lia || (intro H; apply Ht; right; exact H) || exact Hk).
    reflexivity.
Qed.

Lemma plus_any_all : forall A t cs (k : list ascii -> caps -> option A) v,
  t <> [] -> ~ In "010"%char t -> k [] cs = Some v ->
  m (Plus Any) t cs k = Some v.
Proof.
  intros A [|x t] cs k v Hne Ht Hk; [congruence|].
  unfold Plus; rewrite m_cat_eq, m_any_eq by exact (newline_free_head x t Ht).
  exact (star_any_all A k v t (length t) cs (le_n _) (fun H => Ht (or_intror H)) Hk).
Qed.

Lemma star_any_ne : forall A pre s cs (k : list ascii -> caps -> option A),
  ~ In "010"%char pre -> k s cs <> None -> m (Star Any) (pre ++ s) cs k <> None.
Proof.
  intros A pre s cs k Hpre Hk; destruct (k s cs) as [v|] eqn:E; [|congruence].
  destruct (star_any_skip A pre s cs k v Hpre E) as [v' H]; rewrite H; discriminate.
Qed.

Lemma between_question_recognised : forall A B,
  ~ In "010"%char A -> ~ In "010"%char B ->
  re_search Pat.orders_between (la "orders between " ++ A ++ la " and " ++ B) = true.
Proof.
  intros A B HA HB; unfold re_search.
  destruct (m Pat.orders_between (la "orders between " ++ A ++ la " and " ++ B) []
              (fun _ cs => Some cs)) as [v|] eqn:E.
  - rewrite (search_here _ _ _ E); reflexivity.
  - exfalso; revert E.
    change (la "orders between " ++ A ++ la " and " ++ B) with
      (la "orders" ++ (la " " ++ (la "between " ++ (A ++ (la " and " ++ B))))).
    unfold Pat.orders_between; rewrite m_cat_eq, m_lits_app; cbv beta.
    rewrite m_cat_eq; apply star_any_ne; [intros [H|[]]; discriminate|]; cbv beta.
    rewrite m_cat_eq, m_lits_app; cbv beta.
    rewrite m_cat_eq; apply star_any_ne; [exact HA|]; cbv beta.
    rewrite m_cat_eq, m_lits_app; cbv beta.
    rewrite <- (app_nil_r B); apply star_any_ne; [exact HB|].
    discriminate.
Qed.

Lemma between_question_capture : forall A B,
  A <> [] -> B <> [] -> ~ In "010"%char A -> ~ In "010"%char B ->
  (forall i, 0 < i < length A -> prefixb (la " and ") (skipn i A ++ la " and " ++ B) = false) ->
  exists v, findall_first Pat.between_dates (la "orders between " ++ A ++ la " and " ++ B)
              = Some v /\ group v 1 = A /\ group v 2 = B.
Proof.
  intros [|a0 A'] B HA HB HnA HnB Hfirst; [congruence|]; unfold findall_first.
  change (la "orders between " ++ (a0 :: A') ++ la " and " ++ B) with
    (la "orders " ++ (la "between " ++ (a0 :: A') ++ la " and " ++ B)).
  rewrite search_app_skip
    by (intros i Hi; simpl in Hi; do 7 (destruct i as [|i]; [reflexivity|]); lia).
  eexists; split; [|split].
  - apply search_here.
    unfold Pat.between_dates; rewrite m_cat_eq, m_lits_app; cbv beta.
    rewrite m_cat_eq, m_group_eq; unfold LazyPlus; rewrite m_cat_eq.
    rewrite <- app_comm_cons, m_any_eq by exact (newline_free_head a0 A' HnA); cbv beta.
    apply lazy_any_first.
    + intro H; apply HnA; right; exact H.
    + intros i Hi; cbv beta; rewrite m_cat_eq, m_lits_fail; [reflexivity|].
      exact (Hfirst (S i) ltac:(simpl; lia)).
    + cbv beta; rewrite m_cat_eq, m_lits_app; cbv beta.
      rewrite m_group_eq; apply plus_any_all; [exact HB|exact HnB|reflexivity].
  - unfold group; cbn [find fst Nat.eqb].
    exact (firstn_prefix_len (a0 :: A') (la " and " ++ B)).
  - unfold group; cbn [find fst Nat.eqb length]; rewrite Nat.sub_0_r; apply firstn_all.
Qed.

(** Lines 118-129: on a normalized question "orders between A and B", with
    A and B non-empty single-line texts and no " and " starting inside A
    after its first character, the block returns the between query with A
    and B, each stripped, as the two dates. *)
Theorem between_dates_in_query : forall A B : string,
  A <> ""%string -> B <> ""%string ->
  ~ In "010"%char (la A) -> ~ In "010"%char (la B) ->
  (forall i, 0 < i < length (la A) ->
     prefixb (la " and ") (skipn i (la A) ++ la " and " ++ la B) = false) ->
  Rule.orders_between (la ("orders between " ++ A ++ " and " ++ B)%string) =
  Some (Sql.orders_between (string_of_list_ascii (strip (la A)))
                           (string_of_list_ascii (strip (la B)))).
Proof.
  intros A B HA HB HnA HnB Hfirst.
  assert (HA' : la A <> []) by (destruct A; [congruence|discriminate]).
  assert (HB' : la B <> []) by (destruct B; [congruence|discriminate]).
  rewrite !la_app; unfold Rule.orders_between.
  rewrite between_question_recognised by assumption.
  destruct (between_question_capture (la A) (la B) HA' HB' HnA HnB Hfirst)
    as (v & Hv & H1 & H2).
  rewrite Hv, H1, H2; reflexivity.
Qed.

Lemma between_dates_in_query_witness :
  Rule.orders_between (la "orders between  2024-01-01 and 2024-12-31 ") =
  Some (Sql.orders_between "2024-01-01" "2024-12-31").
Proof.
  apply (between_dates_in_query " 2024-01-01" "2024-12-31 ");
    [discriminate|discriminate| | |].
  - intro H; simpl in H; repeat (destruct H as [H|H]; [discriminate|]); exact H.
  - intro H; simpl in H; repeat (destruct H as [H|H]; [discriminate|]); exact H.
  - intros i [H0 H1]; simpl in H1; do 11 (destruct i as [|i]; [first [lia|reflexivity]|]); lia.
Defined.
